(** * The Blockscout MCP gateway (mcp-server/server.py)

    A shallow embedding of the HTTP wrapper that turns one request into one
    run of the downstream command line tool, and the properties of its
    result mapping.

    What is modelled, and how:
    - Python values that travel as JSON ([Any] after decoding) are the
      inductive type [json]; a [dict] is an association list with unique
      keys in insertion order, updated with [dict_set].
    - Python [str] is a Rocq [string] holding the UTF-8 encoding of the text;
      the bytes of a stream are a [string] too.
    - Exceptions are values of [exn]; code that may raise and that touches
      the operating system lives in the monad [M] (state, exceptions, and
      blocking forever).
    - The operating system is a process table [os]; what a spawned program
      does is given by the environment ([os_exec]): when it exits, what it
      writes, and until when its output streams stay open.
    - [subprocess.run] follows the standard library (CPython 3.11): the
      pipes are read to end-of-file within the timeout, the child is waited
      for, and in text mode both streams are then decoded strictly, with
      the line ends translated.  The locale's encoding is taken to be UTF-8.
    - The standard library's [json.loads] and [json.dumps] are parameters of
      the handlers; [PyJson] gives a reference codec used to run the
      handlers on concrete inputs, with the decoder's two limits (digits of
      an integer, depth of nesting).
    - A handler that returns normally hands its value to the framework; a
      handler that raises [HTTPException] is the HTTP error with that
      status.  What the framework does with a returned value, and logging,
      are not modelled. *)

From Stdlib Require Import ZArith NArith String Ascii List Bool Lia DecimalString.
From stdpp Require Import gmap strings.
Import ListNotations.
Local Open Scope string_scope.
Set Warnings "-register-all".

(** ** Python values *)

Inductive json : Type :=
| JNull
| JBool (b : bool)
| JInt (n : Z)
| JFloat (literal : string)
| JString (s : string)
| JArray (items : list json)
| JObject (members : list (string * json)).

(** [Dict[str, Any]]: unique keys, insertion order. *)
Abbreviation dict := (list (string * json)).

(** [d[k] = v] *)
Fixpoint dict_set (k : string) (v : json) (d : dict) : dict :=
  match d with
  | [] => [(k, v)]
  | (k', v') :: d' =>
      if String.eqb k' k then (k', v) :: d' else (k', v') :: dict_set k v d'
  end.

(** [d.get(k)] *)
Fixpoint dict_get (k : string) (d : dict) : option json :=
  match d with
  | [] => None
  | (k', v') :: d' => if String.eqb k' k then Some v' else dict_get k d'
  end.

(** [dict(pairs)] *)
Definition dict_of_pairs (pairs : list (string * json)) : dict :=
  fold_left (fun d kv => dict_set (fst kv) (snd kv) d) pairs [].

(** Truthiness of a [str]. *)
Definition str_truthy (s : string) : bool :=
  match s with EmptyString => false | String _ _ => true end.

(** [s or default] on strings. *)
Definition str_or (s default : string) : string :=
  if str_truthy s then s else default.

(** ** Exceptions *)

Inductive exn : Type :=
| TimeoutExpired (cmd : list string) (timeout : Z)
| JSONDecodeError
| ValidationError
| OSError (strerror : string)
| ValueError (msg : string)
| RecursionError
| UnicodeDecodeError
| TypeError (msg : string)
| HTTPException (status_code : Z) (detail : detail)
with detail : Type :=
| Text (s : string)
| Str (e : exn).

(** ** Reference JSON codec (the behaviour of [json.loads] / [json.dumps]) *)

Module PyJson.

Definition dq : ascii := ascii_of_nat 34.
Definition bs : ascii := ascii_of_nat 92.

(** A string between double quotes, as it appears in JSON text. *)
Definition quoted (s : string) : string := String dq (s +:+ String dq "").

Definition is_ws (c : ascii) : bool :=
  let n := nat_of_ascii c in
  Nat.eqb n 32 || Nat.eqb n 9 || Nat.eqb n 10 || Nat.eqb n 13.

Fixpoint skip_ws (s : string) : string :=
  match s with
  | String c r => if is_ws c then skip_ws r else s
  | EmptyString => s
  end.

Definition is_digit (c : ascii) : bool :=
  let n := nat_of_ascii c in Nat.leb 48 n && Nat.leb n 57.

Fixpoint span_digits (s : string) : string * string :=
  match s with
  | String c r =>
      if is_digit c then let (d, r') := span_digits r in (String c d, r')
      else (EmptyString, s)
  | EmptyString => (EmptyString, s)
  end.

Fixpoint int_of_digits (acc : Z) (s : string) : Z :=
  match s with
  | String c r => int_of_digits (10 * acc + Z.of_nat (nat_of_ascii c) - 48)%Z r
  | EmptyString => acc
  end.

Fixpoint strip_prefix (p s : string) : option string :=
  match p, s with
  | EmptyString, _ => Some s
  | String a p', String b s' => if Ascii.eqb a b then strip_prefix p' s' else None
  | String _ _, EmptyString => None
  end.

(** The number pattern of the decoder, piece by piece; each piece gives the
    text it matched and what follows. *)

(** An optional minus sign. *)
Definition minus_sign (s : string) : string * string :=
  match s with
  | String c r => if Ascii.eqb c "-" then ("-", r) else (EmptyString, s)
  | EmptyString => (EmptyString, s)
  end.

(** [0], or a non-zero digit followed by digits. *)
Definition integer_part (s : string) : option (string * string) :=
  match s with
  | String c r =>
      if is_digit c then
        if Ascii.eqb c "0" then Some (String c EmptyString, r)
        else let (d, r') := span_digits r in Some (String c d, r')
      else None
  | EmptyString => None
  end.

(** An optional fraction: a dot and at least one digit. *)
Definition fraction_part (s : string) : string * string :=
  match s with
  | String p r =>
      if Ascii.eqb p "." then
        match span_digits r with
        | (EmptyString, _) => (EmptyString, s)
        | (d, r') => (String p d, r')
        end
      else (EmptyString, s)
  | EmptyString => (EmptyString, s)
  end.

(** An optional exponent: [e] or [E], an optional sign, at least one digit. *)
Definition exponent_part (s : string) : string * string :=
  match s with
  | String e r =>
      if Ascii.eqb e "e" || Ascii.eqb e "E" then
        let '(sign, r1) :=
          match r with
          | String g r' =>
              if Ascii.eqb g "+" || Ascii.eqb g "-"
              then (String g EmptyString, r') else (EmptyString, r)
          | EmptyString => (EmptyString, r)
          end in
        match span_digits r1 with
        | (EmptyString, _) => (EmptyString, s)
        | (d, r2) => (String e (sign +:+ d), r2)
        end
      else (EmptyString, s)
  | EmptyString => (EmptyString, s)
  end.

(** The dialect of a decoder: whether the constants [NaN], [Infinity] and
    [-Infinity] are read as floats, and how many digits an integer literal
    may have (the interpreter's limit on converting a string to an
    integer). *)
Record dialect : Type := {
  nonfinite : bool;
  max_str_digits : option N
}.

(** What [json.loads] reads. *)
Definition python : dialect :=
  {| nonfinite := true; max_str_digits := Some 4300%N |}.

(** The grammar of [json.loads], without the interpreter's limits. *)
Definition python_grammar : dialect :=
  {| nonfinite := true; max_str_digits := None |}.

(** The grammar of RFC 8259. *)
Definition rfc8259 : dialect :=
  {| nonfinite := false; max_str_digits := None |}.

Definition decimal (n : N) : string := NilZero.string_of_uint (N.to_uint n).

(** The error of the interpreter for an integer literal with too many
    digits. *)
Definition too_many_digits (limit digits : N) : exn :=
  ValueError
    ("Exceeds the limit (" +:+ decimal limit
       +:+ " digits) for integer string conversion: value has "
       +:+ decimal digits
       +:+ " digits; use sys.set_int_max_str_digits() to increase the limit").

(** The errors of the interpreter's limits. *)
Definition limit_error (e : exn) : Prop :=
  e = RecursionError \/ exists limit digits, e = too_many_digits limit digits.

(** A number at the start of [s]: an integer when there is neither fraction
    nor exponent, otherwise a float, kept as its literal.  The integer is
    refused when its literal has more digits than the dialect allows. *)
Definition match_number (d : dialect) (s : string)
  : option ((exn + json) * string) :=
  let '(sign, s1) := minus_sign s in
  match integer_part s1 with
  | Some (ipart, s2) =>
      let '(frac, s3) := fraction_part s2 in
      let '(expo, s4) := exponent_part s3 in
      match frac, expo with
      | EmptyString, EmptyString =>
          let n := int_of_digits 0 ipart in
          let v := JInt (match sign with EmptyString => n | String _ _ => - n end)%Z in
          let digits := N.of_nat (String.length ipart) in
          match max_str_digits d with
          | Some limit =>
              if (limit <? digits)%N
              then Some (inl (too_many_digits limit digits), s4)
              else Some (inr v, s4)
          | None => Some (inr v, s4)
          end
      | _, _ => Some (inr (JFloat (sign +:+ ipart +:+ frac +:+ expo)), s4)
      end
  | None => None
  end.

(** *** String literals *)

Definition hex_digit (c : ascii) : option N :=
  let n := N_of_ascii c in
  if (48 <=? n)%N && (n <=? 57)%N then Some (n - 48)%N
  else if (65 <=? n)%N && (n <=? 70)%N then Some (n - 55)%N
  else if (97 <=? n)%N && (n <=? 102)%N then Some (n - 87)%N
  else None.

Definition hex4 (a b c d : ascii) : option N :=
  match hex_digit a, hex_digit b, hex_digit c, hex_digit d with
  | Some x, Some y, Some z, Some w => Some (((x * 16 + y) * 16 + z) * 16 + w)%N
  | _, _, _, _ => None
  end.

(** The one-letter escapes. *)
Definition simple_escape (c : ascii) : option ascii :=
  let n := nat_of_ascii c in
  if Nat.eqb n 34 then Some dq
  else if Nat.eqb n 92 then Some bs
  else if Nat.eqb n 47 then Some "/"%char
  else if Nat.eqb n 98 then Some (ascii_of_nat 8)
  else if Nat.eqb n 102 then Some (ascii_of_nat 12)
  else if Nat.eqb n 110 then Some (ascii_of_nat 10)
  else if Nat.eqb n 114 then Some (ascii_of_nat 13)
  else if Nat.eqb n 116 then Some (ascii_of_nat 9)
  else None.

(** The pieces of a string literal: a character taken as it is, or the code
    unit of a [\uXXXX] escape. *)
Inductive piece : Type :=
| Lit (c : ascii)
| Esc (u : N).

(** Scans after the opening quote up to the closing quote.  Control
    characters below 0x20 are refused (strict mode). *)
Fixpoint scan_pieces (s : string) : option (list piece * string) :=
  match s with
  | EmptyString => None
  | String c r =>
      if Ascii.eqb c dq then Some ([], r)
      else if Ascii.eqb c bs then
        match r with
        | String e r1 =>
            if Ascii.eqb e "u" then
              match r1 with
              | String h1 (String h2 (String h3 (String h4 r2))) =>
                  match hex4 h1 h2 h3 h4 with
                  | Some u =>
                      match scan_pieces r2 with
                      | Some (ps, rest) => Some (Esc u :: ps, rest)
                      | None => None
                      end
                  | None => None
                  end
              | _ => None
              end
            else
              match simple_escape e with
              | Some ch =>
                  match scan_pieces r1 with
                  | Some (ps, rest) => Some (Lit ch :: ps, rest)
                  | None => None
                  end
              | None => None
              end
        | EmptyString => None
        end
      else if Nat.ltb (nat_of_ascii c) 32 then None
      else
        match scan_pieces r with
        | Some (ps, rest) => Some (Lit c :: ps, rest)
        | None => None
        end
  end.

Definition byte (n : N) : ascii := ascii_of_N n.

(** UTF-8 encoding of a code point (a lone surrogate is written with the
    three-byte pattern). *)
Definition utf8 (u : N) : string :=
  if (u <? 128)%N then String (byte u) ""
  else if (u <? 2048)%N then
    String (byte (192 + N.shiftr u 6))
      (String (byte (128 + N.land u 63)) "")
  else if (u <? 65536)%N then
    String (byte (224 + N.shiftr u 12))
      (String (byte (128 + N.land (N.shiftr u 6) 63))
         (String (byte (128 + N.land u 63)) ""))
  else
    String (byte (240 + N.shiftr u 18))
      (String (byte (128 + N.land (N.shiftr u 12) 63))
         (String (byte (128 + N.land (N.shiftr u 6) 63))
            (String (byte (128 + N.land u 63)) ""))).

Definition is_high (u : N) : bool := (55296 <=? u)%N && (u <=? 56319)%N.
Definition is_low (u : N) : bool := (56320 <=? u)%N && (u <=? 57343)%N.

(** A high surrogate escape directly followed by a low surrogate escape is
    one code point. *)
Fixpoint join_pieces (ps : list piece) : string :=
  match ps with
  | [] => ""
  | Lit c :: r => String c (join_pieces r)
  | Esc u :: r =>
      match r with
      | Esc v :: r' =>
          if is_high u && is_low v
          then utf8 (65536 + N.lor (N.shiftl (u - 55296) 10) (v - 56320))
                 +:+ join_pieces r'
          else utf8 u +:+ join_pieces r
      | _ => utf8 u +:+ join_pieces r
      end
  end.

Definition scanstring (s : string) : option (string * string) :=
  match scan_pieces s with
  | Some (ps, rest) => Some (join_pieces ps, rest)
  | None => None
  end.

(** *** Values *)

Inductive scan (A : Type) : Type :=
| Scanned (a : A) (rest : string)
| Malformed
| Raised (e : exn)
| OutOfFuel.
Arguments Scanned {A} a rest.
Arguments Malformed {A}.
Arguments Raised {A} e.
Arguments OutOfFuel {A}.

Definition constant (d : dialect) (s : string) : option ((exn + json) * string) :=
  match strip_prefix "null" s with
  | Some r => Some (inr JNull, r)
  | None =>
  match strip_prefix "true" s with
  | Some r => Some (inr (JBool true), r)
  | None =>
  match strip_prefix "false" s with
  | Some r => Some (inr (JBool false), r)
  | None =>
  match match_number d s with
  | Some res => Some res
  | None =>
  if nonfinite d then
    match strip_prefix "NaN" s with
    | Some r => Some (inr (JFloat "NaN"), r)
    | None =>
    match strip_prefix "Infinity" s with
    | Some r => Some (inr (JFloat "Infinity"), r)
    | None =>
    match strip_prefix "-Infinity" s with
    | Some r => Some (inr (JFloat "-Infinity"), r)
    | None => None
    end end end
  else None
  end end end end.

(** [depth] is how many nested calls of the scanner the interpreter still
    allows; each value takes one. *)
Fixpoint scan_once (d : dialect) (depth fuel : nat) (s : string) {struct fuel}
  : scan json :=
  match fuel with
  | O => OutOfFuel
  | S fuel =>
      match depth with
      | O => Raised RecursionError
      | S depth =>
          match s with
          | EmptyString => Malformed
          | String c r =>
              if Ascii.eqb c dq then
                match scanstring r with
                | Some (str, rest) => Scanned (JString str) rest
                | None => Malformed
                end
              else if Ascii.eqb c "{" then
                match skip_ws r with
                | String c' r' =>
                    if Ascii.eqb c' "}" then Scanned (JObject []) r'
                    else parse_members d depth fuel (String c' r') []
                | EmptyString => Malformed
                end
              else if Ascii.eqb c "[" then
                match skip_ws r with
                | String c' r' =>
                    if Ascii.eqb c' "]" then Scanned (JArray []) r'
                    else parse_items d depth fuel (String c' r') []
                | EmptyString => Malformed
                end
              else
                match constant d s with
                | Some (inr v, rest) => Scanned v rest
                | Some (inl e, _) => Raised e
                | None => Malformed
                end
          end
      end
  end
with parse_items (d : dialect) (depth fuel : nat) (s : string) (seen : list json)
  {struct fuel} : scan json :=
  match fuel with
  | O => OutOfFuel
  | S fuel =>
      match scan_once d depth fuel s with
      | Scanned v rest =>
          match skip_ws rest with
          | String c r =>
              if Ascii.eqb c "]" then Scanned (JArray (seen ++ [v])) r
              else if Ascii.eqb c ","
              then parse_items d depth fuel (skip_ws r) (seen ++ [v])
              else Malformed
          | EmptyString => Malformed
          end
      | Malformed => Malformed
      | Raised e => Raised e
      | OutOfFuel => OutOfFuel
      end
  end
with parse_members (d : dialect) (depth fuel : nat) (s : string)
    (seen : list (string * json)) {struct fuel} : scan json :=
  match fuel with
  | O => OutOfFuel
  | S fuel =>
      match s with
      | String q r =>
          if Ascii.eqb q dq then
            match scanstring r with
            | Some (key, rest) =>
                match skip_ws rest with
                | String c r1 =>
                    if Ascii.eqb c ":" then
                      match scan_once d depth fuel (skip_ws r1) with
                      | Scanned v rest' =>
                          match skip_ws rest' with
                          | String c' r2 =>
                              if Ascii.eqb c' "}"
                              then Scanned (JObject (dict_of_pairs (seen ++ [(key, v)]))) r2
                              else if Ascii.eqb c' ","
                              then parse_members d depth fuel (skip_ws r2)
                                     (seen ++ [(key, v)])
                              else Malformed
                          | EmptyString => Malformed
                          end
                      | Malformed => Malformed
                      | Raised e => Raised e
                      | OutOfFuel => OutOfFuel
                      end
                    else Malformed
                | EmptyString => Malformed
                end
            | None => Malformed
            end
          else Malformed
      | EmptyString => Malformed
      end
  end.

(** One value, surrounded by optional white space, and nothing else. *)
Definition decode (d : dialect) (depth : nat) (s : string) : scan json :=
  match scan_once d depth (2 * String.length s + 1) (skip_ws s) with
  | Scanned v rest =>
      match skip_ws rest with
      | EmptyString => Scanned v ""
      | String _ _ => Malformed
      end
  | Malformed => Malformed
  | Raised e => Raised e
  | OutOfFuel => OutOfFuel
  end.

(** The nesting the interpreter allows by default.  The bound met in
    practice is lower by the depth of the call stack at the call, which is
    why the decoder below takes the depth that is left as an argument. *)
Definition recursion_limit : nat := 1000.

(** A depth that no text of this length can exhaust. *)
Definition unbounded (s : string) : nat := 2 * String.length s + 1.

(** [json.loads(s)] when the interpreter still allows [depth] nested
    calls: the value; [JSONDecodeError] for text outside the grammar;
    [ValueError] for an integer literal of more than 4300 digits;
    [RecursionError] for values nested more deeply than [depth]. *)
Definition loads_at (depth : nat) (s : string) : exn + json :=
  match decode python depth s with
  | Scanned v _ => inr v
  | Malformed => inl JSONDecodeError
  | Raised e => inl e
  | OutOfFuel => inl RecursionError
  end.

(** [json.loads(s)] called with the whole default depth left. *)
Definition loads (s : string) : exn + json := loads_at recursion_limit s.

(** The text is in the grammar of [json.loads]. *)
Definition accepted (s : string) : bool :=
  match decode python_grammar (unbounded s) s with
  | Scanned _ _ => true
  | _ => false
  end.

(** The text is JSON by RFC 8259. *)
Definition is_json (s : string) : bool :=
  match decode rfc8259 (unbounded s) s with
  | Scanned _ _ => true
  | _ => false
  end.

(** *** Encoder ([ensure_ascii] on, separators [", "] and [": "]) *)

Definition hex_char (n : N) : ascii :=
  if (n <? 10)%N then ascii_of_N (48 + n) else ascii_of_N (87 + n).

(** [\uXXXX] with lower-case digits, for a 16-bit code unit. *)
Definition u_escape (u : N) : string :=
  String bs (String "u"
    (String (hex_char (N.land (N.shiftr u 12) 15))
       (String (hex_char (N.land (N.shiftr u 8) 15))
          (String (hex_char (N.land (N.shiftr u 4) 15))
             (String (hex_char (N.land u 15)) ""))))).

(** A code point outside the basic plane is written as a surrogate pair. *)
Definition escape_code_point (u : N) : string :=
  if (u <? 65536)%N then u_escape u
  else
    let v := (u - 65536)%N in
    u_escape (55296 + N.land (N.shiftr v 10) 1023)
      +:+ u_escape (56320 + N.land v 1023).

Definition cont (c : ascii) : N := N.land (N_of_ascii c) 63.

(** The body of a string literal.  Printable ASCII is kept, the quote and
    the backslash are escaped, everything else becomes an escape; the bytes
    of a UTF-8 sequence are put back together first.  (A byte that does not
    start a well-formed sequence cannot occur in a [str]; it is escaped on
    its own.) *)
Fixpoint escape (s : string) : string :=
  match s with
  | EmptyString => ""
  | String c r =>
      let n := N_of_ascii c in
      if (n =? 34)%N then String bs (String dq (escape r))
      else if (n =? 92)%N then String bs (String bs (escape r))
      else if (n =? 10)%N then String bs (String "n" (escape r))
      else if (n =? 13)%N then String bs (String "r" (escape r))
      else if (n =? 9)%N then String bs (String "t" (escape r))
      else if (n =? 8)%N then String bs (String "b" (escape r))
      else if (n =? 12)%N then String bs (String "f" (escape r))
      else if (32 <=? n)%N && (n <=? 126)%N then String c (escape r)
      else if (n <? 192)%N then u_escape n +:+ escape r
      else if (n <? 224)%N then
        match r with
        | String c1 r1 =>
            escape_code_point (N.shiftl (n - 192) 6 + cont c1) +:+ escape r1
        | _ => u_escape n +:+ escape r
        end
      else if (n <? 240)%N then
        match r with
        | String c1 (String c2 r2) =>
            escape_code_point
              (N.shiftl (n - 224) 12 + N.shiftl (cont c1) 6 + cont c2)
              +:+ escape r2
        | _ => u_escape n +:+ escape r
        end
      else
        match r with
        | String c1 (String c2 (String c3 r3)) =>
            escape_code_point
              (N.shiftl (n - 240) 18 + N.shiftl (cont c1) 12
               + N.shiftl (cont c2) 6 + cont c3)
              +:+ escape r3
        | _ => u_escape n +:+ escape r
        end
  end.

Definition encode_str (s : string) : string := quoted (escape s).

(** [json.dumps(v)].  A float is written with its literal (the interpreter
    prints the shortest literal that reads back as the same float). *)
Fixpoint dumps (v : json) : string :=
  match v with
  | JNull => "null"
  | JBool true => "true"
  | JBool false => "false"
  | JInt n => NilZero.string_of_int (Z.to_int n)
  | JFloat l => l
  | JString s => encode_str s
  | JArray items =>
      "[" +:+
      (fix join (l : list json) : string :=
         match l with
         | [] => ""
         | x :: rest =>
             dumps x +:+ match rest with [] => "" | _ :: _ => ", " +:+ join rest end
         end) items
      +:+ "]"
  | JObject members =>
      "{" +:+
      (fix join (l : list (string * json)) : string :=
         match l with
         | [] => ""
         | (k, x) :: rest =>
             encode_str k +:+ ": " +:+ dumps x
               +:+ match rest with [] => "" | _ :: _ => ", " +:+ join rest end
         end) members
      +:+ "}"
  end.

End PyJson.

(** ** The operating system *)

(** What a spawned program does.  Times are in milliseconds from its start;
    [stdout] and [stderr] are the bytes that arrive on its two output
    streams before they reach end-of-file.
    - [Exits]: it runs for [elapsed] and exits with [returncode]; its
      output streams are at end-of-file when it exits.
    - [Detaches]: it runs for [elapsed] and exits with [returncode], but it
      has started a helper that inherited the output streams and keeps them
      open until [released] (for good when [released] is [None]).
    - [Hangs]: it never exits by itself. *)
Inductive child : Type :=
| Exits (elapsed : N) (returncode : Z) (stdout stderr : string)
| Detaches (elapsed : N) (returncode : Z) (stdout stderr : string)
    (released : option N)
| Hangs.

(** The child exits by itself within [timeout] seconds: its return code. *)
Definition exits_within (c : child) (timeout : Z) : option Z :=
  match c with
  | Exits elapsed rc _ _ | Detaches elapsed rc _ _ _ =>
      if (Z.of_N elapsed <=? 1000 * timeout)%Z then Some rc else None
  | Hangs => None
  end.

(** Within [timeout] seconds the child has exited and both its output
    streams have reached end-of-file: its return code and the bytes of the
    two streams. *)
Definition completes_within (c : child) (timeout : Z)
  : option (Z * string * string) :=
  match c with
  | Exits elapsed rc out err =>
      if (Z.of_N elapsed <=? 1000 * timeout)%Z then Some (rc, out, err) else None
  | Detaches elapsed rc out err (Some released) =>
      if (Z.of_N (N.max elapsed released) <=? 1000 * timeout)%Z
      then Some (rc, out, err) else None
  | Detaches _ _ _ _ None => None
  | Hangs => None
  end.

(** ** Text mode *)

Definition byte_in (lo hi : N) (c : ascii) : bool :=
  let n := N_of_ascii c in (lo <=? n)%N && (n <=? hi)%N.

Definition continuation (c : ascii) : bool := byte_in 128 191 c.

(** The bytes are well-formed UTF-8 (no overlong form, no surrogate,
    nothing above U+10FFFF, no truncated sequence): what the strict decoder
    accepts. *)
Fixpoint utf8_valid (s : string) : bool :=
  match s with
  | EmptyString => true
  | String c r =>
      if byte_in 0 127 c then utf8_valid r
      else if byte_in 194 223 c then
        match r with
        | String c1 r1 => continuation c1 && utf8_valid r1
        | _ => false
        end
      else if byte_in 224 224 c then
        match r with
        | String c1 (String c2 r2) =>
            byte_in 160 191 c1 && continuation c2 && utf8_valid r2
        | _ => false
        end
      else if byte_in 225 236 c || byte_in 238 239 c then
        match r with
        | String c1 (String c2 r2) =>
            continuation c1 && continuation c2 && utf8_valid r2
        | _ => false
        end
      else if byte_in 237 237 c then
        match r with
        | String c1 (String c2 r2) =>
            byte_in 128 159 c1 && continuation c2 && utf8_valid r2
        | _ => false
        end
      else if byte_in 240 240 c then
        match r with
        | String c1 (String c2 (String c3 r3)) =>
            byte_in 144 191 c1 && continuation c2 && continuation c3
            && utf8_valid r3
        | _ => false
        end
      else if byte_in 241 243 c then
        match r with
        | String c1 (String c2 (String c3 r3)) =>
            continuation c1 && continuation c2 && continuation c3
            && utf8_valid r3
        | _ => false
        end
      else if byte_in 244 244 c then
        match r with
        | String c1 (String c2 (String c3 r3)) =>
            byte_in 128 143 c1 && continuation c2 && continuation c3
            && utf8_valid r3
        | _ => false
        end
      else false
  end.

Definition CR : ascii := ascii_of_nat 13.
Definition LF : ascii := ascii_of_nat 10.

(** [data.replace("\r\n", "\n").replace("\r", "\n")] *)
Fixpoint translate_newlines (s : string) : string :=
  match s with
  | EmptyString => EmptyString
  | String c r =>
      if Ascii.eqb c CR then
        match r with
        | String c' r' =>
            if Ascii.eqb c' LF then String LF (translate_newlines r')
            else String LF (translate_newlines r)
        | EmptyString => String LF EmptyString
        end
      else String c (translate_newlines r)
  end.

(** What text mode makes of the bytes of a stream: they are decoded
    strictly (the locale's encoding, taken to be UTF-8) and the line ends
    are translated. *)
Definition decode_text (raw : string) : exn + string :=
  if utf8_valid raw then inr (translate_newlines raw)
  else inl UnicodeDecodeError.

(** What happens when a command line is executed. *)
Inductive launch : Type :=
| SpawnFails (strerror : string)
| Spawns (c : child).

(** A child of the server: still running; terminated but not yet waited
    for; waited for (its return code is known to the [Popen] object). *)
Inductive pstate : Type :=
| Running (c : child)
| Zombie (returncode : Z)
| Reaped (returncode : Z).

(** The keyword arguments of a [Popen] call that matter here. *)
Record popen_call : Type := {
  call_args : list string;
  call_stdout_pipe : bool;
  call_stderr_pipe : bool;
  call_text : bool
}.

Record os : Type := {
  children : gmap positive pstate;
  next_pid : positive;
  popen_log : list popen_call
}.

Definition set_child (p : positive) (s : pstate) (st : os) : os :=
  {| children := <[p := s]> (children st);
     next_pid := next_pid st;
     popen_log := popen_log st |}.

(** ** Computations: state, exceptions, blocking *)

Inductive outcome (A : Type) : Type :=
| Return (a : A)
| Raise (e : exn).
Arguments Return {A} a.
Arguments Raise {A} e.

(** [None]: the computation never comes back. *)
Definition M (A : Type) : Type := os -> option (os * outcome A).

Definition ret {A} (a : A) : M A := fun st => Some (st, Return a).

Definition raise {A} (e : exn) : M A := fun st => Some (st, Raise e).

Definition bind {A B} (m : M A) (k : A -> M B) : M B :=
  fun st =>
    match m st with
    | None => None
    | Some (st', Return a) => k a st'
    | Some (st', Raise e) => Some (st', Raise e)
    end.

(** [try: m  except Exception as e: h e] *)
Definition try_except {A} (m : M A) (h : exn -> M A) : M A :=
  fun st =>
    match m st with
    | None => None
    | Some (st', Return a) => Some (st', Return a)
    | Some (st', Raise e) => h e st'
    end.

(** [with ... : body], where [exit] is the context manager's [__exit__]
    (one that does not swallow the exception). *)
Definition with_exit {A} (exit : M unit) (body : M A) : M A :=
  fun st =>
    match body st with
    | None => None
    | Some (st1, r) =>
        match exit st1 with
        | None => None
        | Some (st2, Return _) => Some (st2, r)
        | Some (st2, Raise e) => Some (st2, Raise e)
        end
    end.

(** A call into a library that only returns or raises. *)
Definition lift {A} (r : exn + A) : M A :=
  match r with
  | inl e => raise e
  | inr a => ret a
  end.

Declare Scope monad_scope.
Delimit Scope monad_scope with monad.
Notation "x <- m ;; k" := (bind m (fun x => k))
  (at level 100, m at next level, right associativity) : monad_scope.
Notation "m ;;; k" := (bind m (fun _ => k))
  (at level 100, right associativity) : monad_scope.
Local Open Scope monad_scope.

(** ** Pydantic models *)

Record MCPToolRequest : Type := {
  tool : string;
  arguments : dict
}.

Record MCPToolResponse : Type := {
  success : bool;
  data : option dict;
  error : option string
}.

(** Validation of a value given for a field of type
    [Optional[Dict[str, Any]]], as pydantic 2 does it: [None] and
    dictionaries are accepted (the keys of a decoded JSON object are
    strings), anything else is refused with [ValidationError]. *)
Definition validate_optional_dict (v : json) : exn + option dict :=
  match v with
  | JNull => inr None
  | JObject members => inr (Some members)
  | _ => inl ValidationError
  end.

(** [MCPToolResponse(success=..., data=..., error=...)]; a keyword left out
    takes its default [None], that is [JNull] for [data]. *)
Definition new_MCPToolResponse
    (success : bool) (data : json) (error : option string) : exn + MCPToolResponse :=
  match validate_optional_dict data with
  | inl e => inl e
  | inr d => inr {| success := success; data := d; error := error |}
  end.

(** ** The subprocess module and the handlers *)

(** A [Popen] object: the child, the command line, which of the two output
    streams are pipes, and whether they are read in text mode. *)
Record Popen_obj : Type := {
  pid : positive;
  args : list string;
  stdout_pipe : bool;
  stderr_pipe : bool;
  text_mode : bool
}.

(** The streams are [None] when they were not captured. *)
Record CompletedProcess : Type := {
  cp_args : list string;
  returncode : option Z;
  stdout : option string;
  stderr : option string
}.

(** [x or default] where [x] is a string or [None]. *)
Definition opt_str_or (x : option string) (default : string) : string :=
  match x with
  | Some s => str_or s default
  | None => default
  end.

(** What [communicate] makes of the bytes of a stream: [None] when the
    stream is not a pipe, the bytes themselves outside text mode, the
    decoded text in text mode. *)
Definition captured_stream (is_pipe text : bool) (raw : string)
  : exn + option string :=
  if is_pipe then
    if text then
      match decode_text raw with
      | inl e => inl e
      | inr s => inr (Some s)
      end
    else inr (Some raw)
  else inr None.

(** [rc != 0] where [rc] is an integer or [None]. *)
Definition ne_zero (rc : option Z) : bool :=
  match rc with
  | Some z => negb (Z.eqb z 0)
  | None => true
  end.

Section Gateway.

(** The standard library's JSON codec. *)
Variable json_dumps : json -> string.
Variable json_loads : string -> exn + json.

(** The environment: what executing a command line does. *)
Variable os_exec : list string -> launch.

(** [Popen(args, stdout=..., stderr=..., text=...)] *)
Definition Popen (c : popen_call) : M Popen_obj :=
  fun st =>
    let st1 := {| children := children st;
                  next_pid := next_pid st;
                  popen_log := popen_log st ++ [c] |} in
    match os_exec (call_args c) with
    | SpawnFails msg => Some (st1, Raise (OSError msg))
    | Spawns prog =>
        let p := next_pid st in
        Some ({| children := <[p := Running prog]> (children st);
                 next_pid := Pos.succ p;
                 popen_log := popen_log st1 |},
              Return {| pid := p; args := call_args c;
                        stdout_pipe := call_stdout_pipe c;
                        stderr_pipe := call_stderr_pipe c;
                        text_mode := call_text c |})
    end.

(** The streams as [communicate] hands them over, standard output first. *)
Definition captured_streams (process : Popen_obj) (out err : string)
  : exn + (option string * option string) :=
  match captured_stream (stdout_pipe process) (text_mode process) out with
  | inl e => inl e
  | inr o =>
      match captured_stream (stderr_pipe process) (text_mode process) err with
      | inl e => inl e
      | inr e => inr (o, e)
      end
  end.

(** [process.communicate(timeout=timeout)], with the timeout in seconds.
    The pipes are read until both are at end-of-file, then the child is
    waited for; when the time is up before that, [TimeoutExpired] is raised
    (a child that has exited by then is left to be waited for).  With no
    pipe there is only the wait.  What was read is decoded after the wait. *)
Definition communicate (process : Popen_obj) (timeout : Z)
  : M (option string * option string) :=
  fun st =>
    match children st !! pid process with
    | Some (Running c) =>
        let done :=
          if stdout_pipe process || stderr_pipe process
          then completes_within c timeout
          else match exits_within c timeout with
               | Some rc => Some (rc, EmptyString, EmptyString)
               | None => None
               end in
        match done with
        | Some (rc, out, err) =>
            Some (set_child (pid process) (Reaped rc) st,
                  match captured_streams process out err with
                  | inl e => Raise e
                  | inr streams => Return streams
                  end)
        | None =>
            Some (match exits_within c timeout with
                  | Some rc => set_child (pid process) (Zombie rc) st
                  | None => st
                  end,
                  Raise (TimeoutExpired (args process) timeout))
        end
    | Some (Zombie rc) =>
        Some (set_child (pid process) (Reaped rc) st,
              match captured_streams process "" "" with
              | inl e => Raise e
              | inr streams => Return streams
              end)
    | Some (Reaped rc) =>
        Some (st, Raise (ValueError "I/O operation on closed file"))
    | None => Some (st, Raise (ValueError "no such process"))
    end.

(** [process.kill()]: the child is polled first, and nothing is sent to a
    child that has terminated. *)
Definition kill (process : Popen_obj) : M unit :=
  fun st =>
    match children st !! pid process with
    | Some (Running _) => Some (set_child (pid process) (Zombie (-9)) st, Return tt)
    | Some (Zombie rc) => Some (set_child (pid process) (Reaped rc) st, Return tt)
    | _ => Some (st, Return tt)
    end.

(** [process.wait()] without a timeout: blocks until the child terminates. *)
Definition wait (process : Popen_obj) : M (option Z) :=
  fun st =>
    match children st !! pid process with
    | Some (Running (Exits _ rc _ _ | Detaches _ rc _ _ _)) =>
        Some (set_child (pid process) (Reaped rc) st, Return (Some rc))
    | Some (Running Hangs) => None
    | Some (Zombie rc) => Some (set_child (pid process) (Reaped rc) st, Return (Some rc))
    | Some (Reaped rc) => Some (st, Return (Some rc))
    | None => Some (st, Return None)
    end.

(** [process.poll()] *)
Definition poll (process : Popen_obj) : M (option Z) :=
  fun st =>
    match children st !! pid process with
    | Some (Zombie rc) => Some (set_child (pid process) (Reaped rc) st, Return (Some rc))
    | Some (Reaped rc) => Some (st, Return (Some rc))
    | _ => Some (st, Return None)
    end.

(** [Popen.__exit__]: waits for the child. *)
Definition Popen_exit (process : Popen_obj) : M unit :=
  wait process ;;; ret tt.

(** [subprocess.run(args, capture_output=..., text=..., timeout=...)] with
    [check] left false.  When the timeout expires the child is killed and
    waited for, and the exception goes on to the caller. *)
Definition subprocess_run
    (argv : list string) (capture_output text : bool) (timeout : Z)
    : M CompletedProcess :=
  process <- Popen {| call_args := argv;
                      call_stdout_pipe := capture_output;
                      call_stderr_pipe := capture_output;
                      call_text := text |} ;;
  with_exit (Popen_exit process)
    (streams <- try_except (communicate process timeout)
                  (fun e =>
                     match e with
                     | TimeoutExpired _ _ => kill process ;;; wait process ;;; raise e
                     | _ => kill process ;;; raise e
                     end) ;;
     retcode <- poll process ;;
     ret {| cp_args := args process;
            returncode := retcode;
            stdout := fst streams;
            stderr := snd streams |}).

(** The command line of the downstream tool for a request.  The arguments
    of a request are JSON values, on which [json.dumps] does not raise. *)
Definition tool_command (request : MCPToolRequest) : list string :=
  ["python"; "-m"; "blockscout_mcp_server";
   "--tool"; tool request;
   "--args"; json_dumps (JObject (arguments request))].

(** The three [except] clauses of the handler, in their order: what is
    raised for an exception caught from the body. *)
Definition except_clauses (e : exn) : exn :=
  match e with
  | TimeoutExpired _ _ => HTTPException 504 (Text "Request timed out")
  | JSONDecodeError => HTTPException 500 (Text "Invalid response from MCP server")
  | _ => HTTPException 500 (Str e)
  end.

(** [json.loads(x)] where [x] is a string or [None]. *)
Definition loads_arg (x : option string) : exn + json :=
  match x with
  | Some s => json_loads s
  | None =>
      inl (TypeError
             "the JSON object must be str, bytes or bytearray, not NoneType")
  end.

(** POST /mcp/call *)
Definition call_mcp_tool (request : MCPToolRequest) : M MCPToolResponse :=
  try_except
    (result <- subprocess_run (tool_command request) true true 30 ;;
     if ne_zero (returncode result) then
       lift (new_MCPToolResponse false JNull
               (Some (opt_str_or (stderr result) "Unknown error")))
     else
       output_data <- lift (loads_arg (stdout result)) ;;
       lift (new_MCPToolResponse true output_data None))
    (fun e => raise (except_clauses e)).

(** POST /mcp/address-info *)
Definition get_address_info (chain_id address : string) : M MCPToolResponse :=
  call_mcp_tool
    {| tool := "get_address_info";
       arguments := [("chain_id", JString chain_id); ("address", JString address)] |}.

(** [if value: arguments[key] = value] for an [Optional[str]] value. *)
Definition set_if_given (key : string) (value : option string) (arguments : dict) : dict :=
  match value with
  | Some s => if str_truthy s then dict_set key (JString s) arguments else arguments
  | None => arguments
  end.

(** The request built by POST /mcp/token-transfers. *)
Definition token_transfers_request
    (chain_id : string) (address age_from age_to token cursor : option string)
    : MCPToolRequest :=
  let arguments := [("chain_id", JString chain_id)] in
  let arguments := set_if_given "address" address arguments in
  let arguments := set_if_given "age_from" age_from arguments in
  let arguments := set_if_given "age_to" age_to arguments in
  let arguments := set_if_given "token" token arguments in
  let arguments := set_if_given "cursor" cursor arguments in
  {| tool := "get_token_transfers"; arguments := arguments |}.

(** POST /mcp/token-transfers *)
Definition get_token_transfers
    (chain_id : string) (address age_from age_to token cursor : option string)
    : M MCPToolResponse :=
  call_mcp_tool (token_transfers_request chain_id address age_from age_to token cursor).

End Gateway.

(** The state of a freshly started server: no child yet. *)
Definition boot : os :=
  {| children := ∅; next_pid := 1%positive; popen_log := [] |}.

(** The process table after one [subprocess.run] that spawned a child which
    ended in state [final]. *)
Definition after_run (c : popen_call) (final : pstate) (st : os) : os :=
  {| children := <[next_pid st := final]> (children st);
     next_pid := Pos.succ (next_pid st);
     popen_log := popen_log st ++ [c] |}.

(** The process table after a [subprocess.run] whose spawn failed. *)
Definition after_failed_spawn (c : popen_call) (st : os) : os :=
  {| children := children st;
     next_pid := next_pid st;
     popen_log := popen_log st ++ [c] |}.

(** The [Popen] call made for a captured, text-mode command. *)
Definition captured (argv : list string) : popen_call :=
  {| call_args := argv;
     call_stdout_pipe := true;
     call_stderr_pipe := true;
     call_text := true |}.

(** The child does not terminate by itself within [timeout] seconds. *)
Definition exceeds (c : child) (timeout : Z) : bool :=
  match c with
  | Exits elapsed _ _ _ | Detaches elapsed _ _ _ _ =>
      (1000 * timeout <? Z.of_N elapsed)%Z
  | Hangs => true
  end.

(** The return code recorded for a child that was given up on after
    [timeout] seconds: its own when it had exited by then (only its output
    streams were still open), that of the kill signal otherwise. *)
Definition code_after_timeout (c : child) (timeout : Z) : Z :=
  match exits_within c timeout with
  | Some rc => rc
  | None => (-9)%Z
  end.

(** The invariant of the response envelope: [data] is there exactly when
    [success] holds, [error] exactly when it does not. *)
Definition envelope_ok (r : MCPToolResponse) : bool :=
  if success r
  then match data r, error r with Some _, None => true | _, _ => false end
  else match data r, error r with None, Some _ => true | _, _ => false end.

(** A decoded JSON value that is an object. *)
Definition is_object (v : json) : bool :=
  match v with JObject _ => true | _ => false end.

(** What a parameter contributes to the mapping: its value when it is given
    and not empty, nothing otherwise. *)
Definition given (value : option string) : option json :=
  match value with
  | Some s => if str_truthy s then Some (JString s) else None
  | None => None
  end.

(** The JSON value of the [data] field of a response. *)
Definition data_value (r : MCPToolResponse) : json :=
  match data r with
  | Some d => JObject d
  | None => JNull
  end.

(** The request and the environment used to run the handlers on concrete
    inputs: the downstream tool exits after 10 ms with the given return
    code and streams. *)
Definition sample_request : MCPToolRequest :=
  {| tool := "get_address_info";
     arguments := [("chain_id", JString "1"); ("address", JString "0xabc")] |}.

Definition tool_exits (rc : Z) (out err : string) : list string -> launch :=
  fun _ => Spawns (Exits 10 rc out err).

Definition tool_hangs : list string -> launch :=
  fun _ => Spawns Hangs.

(** The JSON text [{"x":1}]. *)
Definition x_is_1 : string := "{" +:+ PyJson.quoted "x" +:+ ":1}".

(** The sample request handled by a freshly started server, with the
    reference codec. *)
Abbreviation run_tool exec :=
  (call_mcp_tool PyJson.dumps PyJson.loads exec sample_request boot).
Abbreviation sample_call :=
  (captured (tool_command PyJson.dumps sample_request)).

(** The reading of the result mapping that takes every well-formed JSON
    text on standard output, whatever its kind, to a successful response
    carrying the decoded value. *)
Definition every_json_output_succeeds : Prop :=
  forall (json_dumps : json -> string) (json_loads : string -> exn + json)
         (os_exec : list string -> launch)
         (request : MCPToolRequest) (st : os)
         (elapsed : N) (out err text : string) (v : json),
    os_exec (tool_command json_dumps request) = Spawns (Exits elapsed 0 out err) ->
    (elapsed <= 30 * 1000)%N ->
    decode_text out = inr text ->
    json_loads text = inr v ->
    exists st' r,
      call_mcp_tool json_dumps json_loads os_exec request st = Some (st', Return r)
      /\ success r = true /\ data_value r = v.


(** The reading of the result mapping that takes every text on standard
    output that is not JSON (RFC 8259) to status 500, with the decoder of
    the standard library. *)
Definition every_non_json_output_is_refused : Prop :=
  forall (json_dumps : json -> string) (os_exec : list string -> launch)
         (request : MCPToolRequest) (st : os)
         (elapsed : N) (out err text : string),
    os_exec (tool_command json_dumps request) = Spawns (Exits elapsed 0 out err) ->
    (elapsed <= 30 * 1000)%N ->
    decode_text out = inr text ->
    PyJson.is_json text = false ->
    exists st' d,
      call_mcp_tool json_dumps PyJson.loads os_exec request st
      = Some (st', Raise (HTTPException 500 d)).

(** The reading of the result mapping in which, after a non-zero return
    code, the failure response is built from the text of standard error
    whatever standard output holds. *)
Definition nonzero_exit_ignores_stdout : Prop :=
  forall (json_dumps : json -> string) (json_loads : string -> exn + json)
         (os_exec : list string -> launch)
         (request : MCPToolRequest) (st : os)
         (elapsed : N) (rc : Z) (out err message : string),
    os_exec (tool_command json_dumps request) = Spawns (Exits elapsed rc out err) ->
    (elapsed <= 30 * 1000)%N ->
    rc <> 0%Z ->
    decode_text err = inr message ->
    exists st',
      call_mcp_tool json_dumps json_loads os_exec request st
      = Some (st', Return {| success := false; data := None;
                             error := Some (str_or message "Unknown error") |}).

(** Bytes that are not UTF-8: ["bad "], the byte 0xFF, [" byte"]. *)
Definition bad_bytes : string := "bad " +:+ String (ascii_of_nat 255) " byte".

(** The text [{"x": NaN}]. *)
Definition x_is_nan : string := "{" +:+ PyJson.quoted "x" +:+ ": NaN}".

(** ** Vocabulary of the further properties *)

(** The entry a parameter adds to the mapping, if any. *)
Definition entry (key : string) (value : option string) : dict :=
  match given value with
  | Some v => [(key, v)]
  | None => []
  end.

(** A parameter given empty, read as a parameter left out. *)
Definition blank_to_none (value : option string) : option string :=
  match value with
  | Some EmptyString => None
  | _ => value
  end.

(** A decoded JSON value that is neither an object nor [null]. *)
Definition is_scalar_or_array (v : json) : bool :=
  match v with
  | JNull | JObject _ => false
  | _ => true
  end.

(** An environment in which the interpreter cannot be started. *)
Definition tool_missing : list string -> launch :=
  fun _ => SpawnFails "[Errno 2] No such file or directory: 'python'".

(** The answer of the handler for a child that was done in time, from its
    return code and the text of its two streams. *)
Definition answer_on_exit
    (json_loads : string -> exn + json) (rc : Z) (out err : string)
    : outcome MCPToolResponse :=
  if negb (rc =? 0)%Z then
    Return {| success := false; data := None;
              error := Some (str_or err "Unknown error") |}
  else
    match json_loads out with
    | inl e => Raise (except_clauses e)
    | inr v =>
        match validate_optional_dict v with
        | inl e => Raise (except_clauses e)
        | inr d => Return {| success := true; data := d; error := None |}
        end
    end.

(** The answer of the handler for a child that was done in time, from its
    return code and the bytes of its two streams: they are decoded first. *)
Definition answer_on_completion
    (json_loads : string -> exn + json) (rc : Z) (out err : string)
    : outcome MCPToolResponse :=
  match decode_text out, decode_text err with
  | inr text_out, inr text_err => answer_on_exit json_loads rc text_out text_err
  | _, _ => Raise (HTTPException 500 (Str UnicodeDecodeError))
  end.

(** The three ways a call of the handler can go, with the state it leaves
    and its answer: the command cannot be started; the child is not done in
    time; the child is done in time. *)
Inductive path
    (json_dumps : json -> string) (json_loads : string -> exn + json)
    (os_exec : list string -> launch)
    (request : MCPToolRequest) (st : os)
  : os -> outcome MCPToolResponse -> Prop :=
| path_spawn_failure msg :
    os_exec (tool_command json_dumps request) = SpawnFails msg ->
    path json_dumps json_loads os_exec request st
      (after_failed_spawn (captured (tool_command json_dumps request)) st)
      (Raise (HTTPException 500 (Str (OSError msg))))
| path_timeout c :
    os_exec (tool_command json_dumps request) = Spawns c ->
    completes_within c 30 = None ->
    path json_dumps json_loads os_exec request st
      (after_run (captured (tool_command json_dumps request))
         (Reaped (code_after_timeout c 30)) st)
      (Raise (HTTPException 504 (Text "Request timed out")))
| path_exit c rc out err :
    os_exec (tool_command json_dumps request) = Spawns c ->
    completes_within c 30 = Some (rc, out, err) ->
    path json_dumps json_loads os_exec request st
      (after_run (captured (tool_command json_dumps request)) (Reaped rc) st)
      (answer_on_completion json_loads rc out err).

(** The status of an answer: 200 (the default of the routes) for a returned
    response, the status of the [HTTPException] otherwise; nothing for
    another exception. *)
Definition status_of {A} (o : outcome A) : option Z :=
  match o with
  | Return _ => Some 200%Z
  | Raise (HTTPException code _) => Some code
  | Raise _ => None
  end.

(** * Properties *)

(** ** The reference decoder *)

Module PyJsonFacts.
Import PyJson.

Lemma skip_ws_length s : String.length (skip_ws s) <= String.length s.
Proof.
  induction s as [| c s IH]; cbn [skip_ws String.length]; [lia |].
  destruct (is_ws c); cbn [String.length]; lia.
Qed.

Lemma span_digits_length s d r :
  span_digits s = (d, r) -> String.length r <= String.length s.
Proof.
  revert d r. induction s as [| c s IH]; intros d r; cbn [span_digits].
  - intros [= <- <-]. reflexivity.
  - destruct (is_digit c).
    + destruct (span_digits s) as [d' r'] eqn:E. intros [= <- <-].
      specialize (IH _ _ eq_refl). cbn [String.length]. lia.
    + intros [= <- <-]. reflexivity.
Qed.

Lemma strip_prefix_length p s r :
  strip_prefix p s = Some r ->
  String.length r + String.length p = String.length s.
Proof.
  revert s. induction p as [| a p IH]; intros s; cbn [strip_prefix].
  - intros [= <-]. cbn. lia.
  - destruct s as [| b s]; [discriminate |].
    destruct (Ascii.eqb a b); [| discriminate].
    intros H. apply IH in H. cbn [String.length]. lia.
Qed.

Lemma minus_sign_length s m r :
  minus_sign s = (m, r) -> String.length r <= String.length s.
Proof.
  unfold minus_sign. destruct s as [| c s]; [by intros [= <- <-] |].
  destruct (Ascii.eqb c "-"); intros [= <- <-]; cbn [String.length]; lia.
Qed.

Lemma integer_part_length s i r :
  integer_part s = Some (i, r) -> String.length r < String.length s.
Proof.
  unfold integer_part. destruct s as [| c s]; [discriminate |].
  destruct (is_digit c); [| discriminate].
  destruct (Ascii.eqb c "0").
  - intros [= <- <-]. cbn [String.length]. lia.
  - destruct (span_digits s) as [d r'] eqn:E. intros [= <- <-].
    apply span_digits_length in E. cbn [String.length]. lia.
Qed.

Lemma fraction_part_length s f r :
  fraction_part s = (f, r) -> String.length r <= String.length s.
Proof.
  unfold fraction_part. destruct s as [| p s]; [by intros [= <- <-] |].
  destruct (Ascii.eqb p "."); [| by intros [= <- <-]].
  destruct (span_digits s) as [d r'] eqn:E. apply span_digits_length in E.
  destruct d; intros [= <- <-]; cbn [String.length]; lia.
Qed.

Lemma exponent_part_length s e r :
  exponent_part s = (e, r) -> String.length r <= String.length s.
Proof.
  unfold exponent_part. destruct s as [| c s]; [by intros [= <- <-] |].
  destruct (Ascii.eqb c "e" || Ascii.eqb c "E"); [| by intros [= <- <-]].
  destruct (match s with
            | "" => ("", s)
            | String g r' =>
                if Ascii.eqb g "+" || Ascii.eqb g "-"
                then (String g "", r') else ("", s)
            end) as [sign r1] eqn:Esign.
  assert (Hr1 : String.length r1 <= String.length s).
  { destruct s as [| g s']; [by injection Esign as _ <- |].
    destruct (Ascii.eqb g "+" || Ascii.eqb g "-");
      injection Esign as _ <-; cbn [String.length]; lia. }
  destruct (span_digits r1) as [d r2] eqn:E. apply span_digits_length in E.
  destruct d; intros [= <- <-]; cbn [String.length]; lia.
Qed.

Lemma match_number_length d s x r :
  match_number d s = Some (x, r) -> String.length r < String.length s.
Proof.
  unfold match_number.
  destruct (minus_sign s) as [sign s1] eqn:E1. apply minus_sign_length in E1.
  destruct (integer_part s1) as [[ipart s2] |] eqn:E2; [| discriminate].
  apply integer_part_length in E2.
  destruct (fraction_part s2) as [frac s3] eqn:E3. apply fraction_part_length in E3.
  destruct (exponent_part s3) as [expo s4] eqn:E4. apply exponent_part_length in E4.
  destruct frac, expo; cbv zeta;
    repeat match goal with
           | |- context [match ?o with Some _ => _ | None => _ end] => destruct o
           | |- context [if ?b then _ else _] => destruct b
           end;
    intros [= _ <-]; lia.
Qed.

Lemma constant_length d s x r :
  constant d s = Some (x, r) -> String.length r < String.length s.
Proof.
  unfold constant.
  repeat match goal with
         | |- context [strip_prefix ?p s] =>
             let E := fresh "E" in
             destruct (strip_prefix p s) eqn:E;
             [apply strip_prefix_length in E; cbn [String.length] in E;
              intros [= _ <-]; lia |]
         | |- context [match_number d s] =>
             let E := fresh "E" in
             destruct (match_number d s) as [[? ?] |] eqn:E;
             [apply match_number_length in E; intros [= _ <-]; lia |]
         | |- context [nonfinite d] => destruct (nonfinite d)
         end;
    discriminate.
Qed.

(** A string literal consumes at least its closing quote. *)
Lemma scan_pieces_length_bounded n :
  forall s ps rest,
    String.length s <= n ->
    scan_pieces s = Some (ps, rest) -> String.length rest < String.length s.
Proof.
  induction n as [| n IH]; intros s ps rest Hn.
  - destruct s; [discriminate | cbn [String.length] in Hn; lia].
  - destruct s as [| c r]; [discriminate |]. cbn [String.length] in Hn.
    cbn [scan_pieces].
    destruct (Ascii.eqb c dq); [intros [= _ <-]; cbn [String.length]; lia |].
    destruct (Ascii.eqb c bs).
    + destruct r as [| e r1]; [discriminate |]. cbn [String.length] in Hn.
      destruct (Ascii.eqb e "u").
      * destruct r1 as [| h1 [| h2 [| h3 [| h4 r2]]]]; try discriminate.
        cbn [String.length] in Hn.
        destruct (hex4 h1 h2 h3 h4); [| discriminate].
        destruct (scan_pieces r2) as [[ps' rest'] |] eqn:E; [| discriminate].
        apply IH in E; [| lia]. intros [= _ <-]. cbn [String.length]. lia.
      * destruct (simple_escape e); [| discriminate].
        destruct (scan_pieces r1) as [[ps' rest'] |] eqn:E; [| discriminate].
        apply IH in E; [| lia]. intros [= _ <-]. cbn [String.length]. lia.
    + destruct (Nat.ltb (nat_of_ascii c) 32); [discriminate |].
      destruct (scan_pieces r) as [[ps' rest'] |] eqn:E; [| discriminate].
      apply IH in E; [| lia]. intros [= _ <-]. cbn [String.length]. lia.
Qed.

Lemma scanstring_length s str rest :
  scanstring s = Some (str, rest) -> String.length rest < String.length s.
Proof.
  unfold scanstring.
  destruct (scan_pieces s) as [[ps rest'] |] eqn:E; [| discriminate].
  intros [= _ <-]. by apply scan_pieces_length_bounded with (n := String.length s) in E.
Qed.

(** Whatever is decoded is taken from the front of the text. *)
Lemma scanned_is_shorter d n :
  (forall depth s v rest,
      scan_once d depth n s = Scanned v rest ->
      String.length rest < String.length s)
  /\ (forall depth s seen v rest,
        parse_items d depth n s seen = Scanned v rest ->
        String.length rest < String.length s)
  /\ (forall depth s seen v rest,
        parse_members d depth n s seen = Scanned v rest ->
        String.length rest < String.length s).
Proof.
  induction n as [| n (IHv & IHi & IHm)]; [repeat split; discriminate |].
  repeat apply conj.
  - intros depth s v rest. cbn [scan_once].
    destruct depth as [| depth]; [discriminate |].
    destruct s as [| c r]; [discriminate |].
    destruct (Ascii.eqb c dq).
    { destruct (scanstring r) as [[str rest'] |] eqn:E; [| discriminate].
      apply scanstring_length in E. intros [= _ <-]. cbn [String.length]. lia. }
    destruct (Ascii.eqb c "{").
    { pose proof (skip_ws_length r) as Hws.
      destruct (skip_ws r) as [| c' r']; [discriminate |].
      cbn [String.length] in *.
      destruct (Ascii.eqb c' "}"); [intros [= _ <-]; lia |].
      intros H. apply IHm in H. cbn [String.length] in H. lia. }
    destruct (Ascii.eqb c "[").
    { pose proof (skip_ws_length r) as Hws.
      destruct (skip_ws r) as [| c' r']; [discriminate |].
      cbn [String.length] in *.
      destruct (Ascii.eqb c' "]"); [intros [= _ <-]; lia |].
      intros H. apply IHi in H. cbn [String.length] in H. lia. }
    destruct (constant d (String c r)) as [[[e | v'] rest'] |] eqn:E;
      try discriminate.
    apply constant_length in E. by intros [= _ <-].
  - intros depth s seen v rest. cbn [parse_items].
    destruct (scan_once d depth n s) as [v' rest' | | |] eqn:E; try discriminate.
    apply IHv in E. pose proof (skip_ws_length rest') as Hws.
    destruct (skip_ws rest') as [| c r]; [discriminate |].
    cbn [String.length] in Hws.
    destruct (Ascii.eqb c "]"); [intros [= _ <-]; lia |].
    destruct (Ascii.eqb c ","); [| discriminate].
    intros H. apply IHi in H. pose proof (skip_ws_length r). lia.
  - intros depth s seen v rest. cbn [parse_members].
    destruct s as [| q r]; [discriminate |].
    destruct (Ascii.eqb q dq); [| discriminate].
    destruct (scanstring r) as [[key rest0] |] eqn:E0; [| discriminate].
    apply scanstring_length in E0. pose proof (skip_ws_length rest0) as Hws0.
    destruct (skip_ws rest0) as [| c r1]; [discriminate |].
    cbn [String.length] in Hws0 |- *.
    destruct (Ascii.eqb c ":"); [| discriminate].
    destruct (scan_once d depth n (skip_ws r1)) as [v' rest' | | |] eqn:E;
      try discriminate.
    apply IHv in E. pose proof (skip_ws_length r1) as Hws1.
    pose proof (skip_ws_length rest') as Hws.
    destruct (skip_ws rest') as [| c' r2]; [discriminate |].
    cbn [String.length] in Hws.
    destruct (Ascii.eqb c' "}"); [intros [= _ <-]; lia |].
    destruct (Ascii.eqb c' ","); [| discriminate].
    intros H. apply IHm in H. pose proof (skip_ws_length r2). lia.
Qed.

(** Two units of fuel for each character are enough. *)
Lemma enough_fuel d n :
  (forall depth s,
      2 * String.length s + 1 <= n -> scan_once d depth n s <> OutOfFuel)
  /\ (forall depth s seen,
        2 * String.length s + 2 <= n ->
        parse_items d depth n s seen <> OutOfFuel)
  /\ (forall depth s seen,
        2 * String.length s + 2 <= n ->
        parse_members d depth n s seen <> OutOfFuel).
Proof.
  induction n as [| n (IHv & IHi & IHm)]; [repeat split; intros; lia |].
  repeat apply conj.
  - intros depth s Hn. cbn [scan_once].
    destruct depth as [| depth]; [discriminate |].
    destruct s as [| c r]; [discriminate |]. cbn [String.length] in Hn.
    destruct (Ascii.eqb c dq).
    { destruct (scanstring r) as [[str rest'] |]; discriminate. }
    destruct (Ascii.eqb c "{").
    { pose proof (skip_ws_length r) as Hws.
      destruct (skip_ws r) as [| c' r'] eqn:E; [discriminate |].
      destruct (Ascii.eqb c' "}"); [discriminate |].
      apply IHm. lia. }
    destruct (Ascii.eqb c "[").
    { pose proof (skip_ws_length r) as Hws.
      destruct (skip_ws r) as [| c' r'] eqn:E; [discriminate |].
      destruct (Ascii.eqb c' "]"); [discriminate |].
      apply IHi. lia. }
    destruct (constant d (String c r)) as [[[e | v'] rest'] |]; discriminate.
  - intros depth s seen Hn. cbn [parse_items].
    assert (Hv : scan_once d depth n s <> OutOfFuel) by (apply IHv; lia).
    destruct (scan_once d depth n s) as [v' rest' | | |] eqn:E;
      [| discriminate | discriminate | contradiction].
    apply (proj1 (scanned_is_shorter d n)) in E.
    pose proof (skip_ws_length rest') as Hws.
    destruct (skip_ws rest') as [| c r]; [discriminate |].
    cbn [String.length] in Hws.
    destruct (Ascii.eqb c "]"); [discriminate |].
    destruct (Ascii.eqb c ","); [| discriminate].
    apply IHi. pose proof (skip_ws_length r). lia.
  - intros depth s seen Hn. cbn [parse_members].
    destruct s as [| q r]; [discriminate |]. cbn [String.length] in Hn.
    destruct (Ascii.eqb q dq); [| discriminate].
    destruct (scanstring r) as [[key rest0] |] eqn:E0; [| discriminate].
    apply scanstring_length in E0. pose proof (skip_ws_length rest0) as Hws0.
    destruct (skip_ws rest0) as [| c r1]; [discriminate |].
    cbn [String.length] in Hws0.
    destruct (Ascii.eqb c ":"); [| discriminate].
    pose proof (skip_ws_length r1) as Hws1.
    assert (Hv : scan_once d depth n (skip_ws r1) <> OutOfFuel)
      by (apply IHv; lia).
    destruct (scan_once d depth n (skip_ws r1)) as [v' rest' | | |] eqn:E;
      [| discriminate | discriminate | contradiction].
    apply (proj1 (scanned_is_shorter d n)) in E.
    pose proof (skip_ws_length rest') as Hws.
    destruct (skip_ws rest') as [| c' r2]; [discriminate |].
    cbn [String.length] in Hws.
    destruct (Ascii.eqb c' "}"); [discriminate |].
    destruct (Ascii.eqb c' ","); [| discriminate].
    apply IHm. pose proof (skip_ws_length r2). lia.
Qed.

(** The decoder always answers: a value, a decoding error, or an error of
    the interpreter's limits. *)
Lemma decode_has_enough_fuel d depth s : decode d depth s <> OutOfFuel.
Proof.
  unfold decode.
  assert (H : scan_once d depth (2 * String.length s + 1) (skip_ws s) <> OutOfFuel).
  { apply (proj1 (enough_fuel _ _)). pose proof (skip_ws_length s). lia. }
  destruct (scan_once d depth (2 * String.length s + 1) (skip_ws s))
    as [v rest | | |]; [| discriminate | discriminate | contradiction].
  destruct (skip_ws rest); discriminate.
Qed.

Lemma match_number_raises d s e r :
  match_number d s = Some (inl e, r) -> limit_error e.
Proof.
  unfold match_number.
  destruct (minus_sign s) as [sign s1].
  destruct (integer_part s1) as [[ipart s2] |]; [| discriminate].
  destruct (fraction_part s2) as [frac s3].
  destruct (exponent_part s3) as [expo s4].
  destruct frac, expo; cbv zeta; try discriminate.
  destruct (max_str_digits d) as [limit |]; [| discriminate].
  destruct (limit <? _)%N; [| discriminate].
  intros [= <- _]. right. eauto.
Qed.

Lemma constant_raises d s e r :
  constant d s = Some (inl e, r) -> limit_error e.
Proof.
  unfold constant.
  repeat match goal with
         | |- context [strip_prefix ?p s] =>
             destruct (strip_prefix p s); [discriminate |]
         | |- context [match_number d s] =>
             let E := fresh "E" in
             destruct (match_number d s) as [[[? | ?] ?] |] eqn:E;
             [intros [= <- _]; by apply match_number_raises in E
             | discriminate |]
         | |- context [nonfinite d] => destruct (nonfinite d)
         end;
    discriminate.
Qed.

Lemma scan_raises d n :
  (forall depth s e, scan_once d depth n s = Raised e -> limit_error e)
  /\ (forall depth s seen e,
        parse_items d depth n s seen = Raised e -> limit_error e)
  /\ (forall depth s seen e,
        parse_members d depth n s seen = Raised e -> limit_error e).
Proof.
  induction n as [| n (IHv & IHi & IHm)]; [repeat split; discriminate |].
  repeat apply conj.
  - intros depth s e. cbn [scan_once].
    destruct depth as [| depth]; [intros [= <-]; by left |].
    destruct s as [| c r]; [discriminate |].
    destruct (Ascii.eqb c dq).
    { destruct (scanstring r) as [[str rest'] |]; discriminate. }
    destruct (Ascii.eqb c "{").
    { destruct (skip_ws r) as [| c' r']; [discriminate |].
      destruct (Ascii.eqb c' "}"); [discriminate | apply IHm]. }
    destruct (Ascii.eqb c "[").
    { destruct (skip_ws r) as [| c' r']; [discriminate |].
      destruct (Ascii.eqb c' "]"); [discriminate | apply IHi]. }
    destruct (constant d (String c r)) as [[[e' | v'] rest'] |] eqn:E;
      try discriminate.
    intros [= <-]. by apply constant_raises in E.
  - intros depth s seen e. cbn [parse_items].
    destruct (scan_once d depth n s) as [v' rest' | | e' |] eqn:E;
      try discriminate.
    + destruct (skip_ws rest') as [| c r]; [discriminate |].
      destruct (Ascii.eqb c "]"); [discriminate |].
      destruct (Ascii.eqb c ","); [apply IHi | discriminate].
    + intros [= <-]. by apply IHv in E.
  - intros depth s seen e. cbn [parse_members].
    destruct s as [| q r]; [discriminate |].
    destruct (Ascii.eqb q dq); [| discriminate].
    destruct (scanstring r) as [[key rest0] |]; [| discriminate].
    destruct (skip_ws rest0) as [| c r1]; [discriminate |].
    destruct (Ascii.eqb c ":"); [| discriminate].
    destruct (scan_once d depth n (skip_ws r1)) as [v' rest' | | e' |] eqn:E;
      try discriminate.
    + destruct (skip_ws rest') as [| c' r2]; [discriminate |].
      destruct (Ascii.eqb c' "}"); [discriminate |].
      destruct (Ascii.eqb c' ","); [apply IHm | discriminate].
    + intros [= <-]. by apply IHv in E.
Qed.

(** What the decoder can raise. *)
Lemma loads_at_errors depth s e :
  loads_at depth s = inl e ->
  e = JSONDecodeError \/ e = RecursionError \/ exists msg, e = ValueError msg.
Proof.
  unfold loads_at. pose proof (decode_has_enough_fuel python depth s) as Hfuel.
  destruct (decode python depth s) as [v rest | | e' |] eqn:E;
    [discriminate | intros [= <-]; by left | | contradiction].
  intros [= <-]. unfold decode in E.
  destruct (scan_once python depth (2 * String.length s + 1) (skip_ws s))
    as [v rest | | e'' |] eqn:E'; try discriminate.
  - destruct (skip_ws rest); discriminate.
  - injection E as <-. apply (proj1 (scan_raises _ _)) in E'.
    destruct E' as [-> | (limit & digits & ->)]; [by right; left |].
    right; right. unfold too_many_digits. eauto.
Qed.

Lemma loads_at_never_times_out depth s cmd timeout :
  loads_at depth s <> inl (TimeoutExpired cmd timeout).
Proof.
  intros H. apply loads_at_errors in H as [H | [H | [msg H]]]; discriminate.
Qed.

Lemma loads_never_times_out s cmd timeout :
  loads s <> inl (TimeoutExpired cmd timeout).
Proof. apply loads_at_never_times_out. Qed.

(** The limits only add errors: with them the scanner answers as the bare
    grammar does, or raises. *)
Lemma match_number_with_limit s :
  match_number python s = match_number python_grammar s
  \/ exists e r, match_number python s = Some (inl e, r).
Proof.
  unfold match_number.
  destruct (minus_sign s) as [sign s1].
  destruct (integer_part s1) as [[ipart s2] |]; [| by left].
  destruct (fraction_part s2) as [frac s3].
  destruct (exponent_part s3) as [expo s4].
  destruct frac, expo; cbv zeta; try by left.
  cbn [max_str_digits python python_grammar].
  destruct (4300 <? _)%N; [right; eauto | by left].
Qed.

Lemma constant_with_limit s :
  constant python s = constant python_grammar s
  \/ exists e r, constant python s = Some (inl e, r).
Proof.
  unfold constant. cbn [nonfinite python python_grammar].
  destruct (strip_prefix "null" s); [by left |].
  destruct (strip_prefix "true" s); [by left |].
  destruct (strip_prefix "false" s); [by left |].
  destruct (match_number_with_limit s) as [-> | (e & r & ->)];
    [by left | right; eauto].
Qed.

Lemma scan_with_limits n :
  (forall depth big s,
      n <= big ->
      scan_once python depth n s = scan_once python_grammar big n s
      \/ exists e, scan_once python depth n s = Raised e)
  /\ (forall depth big s seen,
        n <= big ->
        parse_items python depth n s seen = parse_items python_grammar big n s seen
        \/ exists e, parse_items python depth n s seen = Raised e)
  /\ (forall depth big s seen,
        n <= big ->
        parse_members python depth n s seen
        = parse_members python_grammar big n s seen
        \/ exists e, parse_members python depth n s seen = Raised e).
Proof.
  induction n as [| n (IHv & IHi & IHm)]; [repeat split; intros; by left |].
  repeat apply conj.
  - intros depth big s Hbig. cbn [scan_once].
    destruct big as [| big]; [lia |].
    destruct depth as [| depth]; [right; eauto |].
    destruct s as [| c r]; [by left |].
    destruct (Ascii.eqb c dq); [by left |].
    destruct (Ascii.eqb c "{").
    { destruct (skip_ws r) as [| c' r']; [by left |].
      destruct (Ascii.eqb c' "}"); [by left | apply IHm; lia]. }
    destruct (Ascii.eqb c "[").
    { destruct (skip_ws r) as [| c' r']; [by left |].
      destruct (Ascii.eqb c' "]"); [by left | apply IHi; lia]. }
    destruct (constant_with_limit (String c r)) as [-> | (e & r' & ->)];
      [by left | right; eauto].
  - intros depth big s seen Hbig. cbn [parse_items].
    destruct (IHv depth big s ltac:(lia)) as [-> | (e & ->)]; [| right; eauto].
    destruct (scan_once python_grammar big n s) as [v' rest' | | e' |];
      try by left.
    destruct (skip_ws rest') as [| c r]; [by left |].
    destruct (Ascii.eqb c "]"); [by left |].
    destruct (Ascii.eqb c ","); [apply IHi; lia | by left].
  - intros depth big s seen Hbig. cbn [parse_members].
    destruct s as [| q r]; [by left |].
    destruct (Ascii.eqb q dq); [| by left].
    destruct (scanstring r) as [[key rest0] |]; [| by left].
    destruct (skip_ws rest0) as [| c r1]; [by left |].
    destruct (Ascii.eqb c ":"); [| by left].
    destruct (IHv depth big (skip_ws r1) ltac:(lia)) as [-> | (e & ->)];
      [| right; eauto].
    destruct (scan_once python_grammar big n (skip_ws r1)) as [v' rest' | | e' |];
      try by left.
    destruct (skip_ws rest') as [| c' r2]; [by left |].
    destruct (Ascii.eqb c' "}"); [by left |].
    destruct (Ascii.eqb c' ","); [apply IHm; lia | by left].
Qed.

(** Text outside the grammar of [json.loads] is never decoded to a value,
    whatever depth is left: the decoder raises a decoding error, or an
    error of the limits when one of them is met first. *)
Lemma loads_at_of_unaccepted depth s :
  accepted s = false ->
  loads_at depth s = inl JSONDecodeError
  \/ loads_at depth s = inl RecursionError
  \/ exists msg, loads_at depth s = inl (ValueError msg).
Proof.
  intros Hacc.
  destruct (loads_at depth s) as [e | v] eqn:Hloads.
  { apply loads_at_errors in Hloads as [-> | [-> | [msg ->]]]; eauto. }
  exfalso. unfold loads_at, accepted, decode, unbounded in *.
  destruct (proj1 (scan_with_limits (2 * String.length s + 1))
              depth (2 * String.length s + 1) (skip_ws s) ltac:(lia))
    as [Heq | (e & He)].
  - rewrite Heq in Hloads.
    destruct (scan_once python_grammar _ _ _) as [v' rest | | e |];
      try discriminate.
    destruct (skip_ws rest); discriminate.
  - rewrite He in Hloads. discriminate.
Qed.

End PyJsonFacts.

(** ** The subprocess layer *)

(** Runs the process-table operations of a computation whose lookups are
    on the child just inserted. *)
Ltac step_os :=
  repeat (progress
    (unfold bind, try_except, with_exit, Popen_exit, communicate, kill, wait,
       poll, raise, ret, lift, set_child, captured_streams, captured_stream;
     cbn [pid children args next_pid popen_log fst snd call_args
          stdout_pipe stderr_pipe text_mode
          call_stdout_pipe call_stderr_pipe call_text orb];
     rewrite ?lookup_insert_eq)).

Section RunFacts.

Variable os_exec : list string -> launch.

Lemma after_run_lookup c final st :
  children (after_run c final st) !! next_pid st = Some final.
Proof. unfold after_run; cbn [children]. apply lookup_insert_eq. Qed.

Lemma after_run_other c final st p :
  p <> next_pid st ->
  children (after_run c final st) !! p = children st !! p.
Proof. intros Hp. unfold after_run; cbn [children]. by apply lookup_insert_ne. Qed.

(** A child that is done in time: it has been waited for, and its return
    code comes back with the text of its two streams, unless one of them is
    not text, in which case [UnicodeDecodeError] goes on to the caller. *)
Lemma subprocess_run_completes argv timeout st c rc out err :
  os_exec argv = Spawns c ->
  completes_within c timeout = Some (rc, out, err) ->
  subprocess_run os_exec argv true true timeout st
  = Some (after_run (captured argv) (Reaped rc) st,
          match decode_text out, decode_text err with
          | inr text_out, inr text_err =>
              Return {| cp_args := argv; returncode := Some rc;
                        stdout := Some text_out; stderr := Some text_err |}
          | _, _ => Raise UnicodeDecodeError
          end).
Proof.
  intros Hexec Hdone.
  unfold subprocess_run, bind, Popen. cbn [call_args]. rewrite Hexec.
  step_os. rewrite Hdone. step_os.
  unfold decode_text.
  destruct (utf8_valid out), (utf8_valid err); step_os;
    rewrite !insert_insert_eq; reflexivity.
Qed.

(** A child that is not done in time is killed, unless it has exited
    already, and waited for, and [TimeoutExpired] goes on to the caller. *)
Lemma subprocess_run_times_out argv timeout st c :
  os_exec argv = Spawns c ->
  completes_within c timeout = None ->
  subprocess_run os_exec argv true true timeout st
  = Some (after_run (captured argv) (Reaped (code_after_timeout c timeout)) st,
          Raise (TimeoutExpired argv timeout)).
Proof.
  intros Hexec Hlate.
  unfold subprocess_run, bind, Popen. cbn [call_args]. rewrite Hexec.
  step_os. rewrite Hlate. unfold code_after_timeout.
  destruct (exits_within c timeout) as [rc |] eqn:Hexit.
  - step_os. rewrite !insert_insert_eq. reflexivity.
  - step_os. rewrite !insert_insert_eq. reflexivity.
Qed.

(** A command that cannot be started: [OSError], and no child. *)
Lemma subprocess_run_spawn_fails argv timeout st msg :
  os_exec argv = SpawnFails msg ->
  subprocess_run os_exec argv true true timeout st
  = Some (after_failed_spawn (captured argv) st, Raise (OSError msg)).
Proof.
  intros Hexec. unfold subprocess_run, bind, Popen. cbn [call_args].
  rewrite Hexec. reflexivity.
Qed.

(** Without capture the streams come back as [None], whatever the child
    wrote. *)
Lemma subprocess_run_without_capture argv text timeout st c rc :
  os_exec argv = Spawns c ->
  exits_within c timeout = Some rc ->
  subprocess_run os_exec argv false text timeout st
  = Some (after_run {| call_args := argv; call_stdout_pipe := false;
                       call_stderr_pipe := false; call_text := text |}
            (Reaped rc) st,
          Return {| cp_args := argv; returncode := Some rc;
                    stdout := None; stderr := None |}).
Proof.
  intros Hexec Hexit.
  unfold subprocess_run, bind, Popen. cbn [call_args]. rewrite Hexec.
  step_os. rewrite Hexit. step_os.
  rewrite !insert_insert_eq. reflexivity.
Qed.

End RunFacts.

(** ** Children and time *)

Lemma exceeds_not_done c timeout :
  exceeds c timeout = true ->
  completes_within c timeout = None /\ code_after_timeout c timeout = (-9)%Z.
Proof.
  unfold exceeds, completes_within, code_after_timeout, exits_within.
  destruct c as [elapsed rc out err | elapsed rc out err [released |] |];
    intros H; try apply Z.ltb_lt in H;
    repeat match goal with
           | |- context [(?a <=? ?b)%Z] => destruct (Z.leb_spec a b)
           end;
    try (split; reflexivity); lia.
Qed.

Lemma exits_in_time elapsed rc out err :
  (elapsed <= 30 * 1000)%N ->
  completes_within (Exits elapsed rc out err) 30 = Some (rc, out, err).
Proof.
  intros H. unfold completes_within.
  destruct (Z.leb_spec (Z.of_N elapsed) (1000 * 30)); [reflexivity | lia].
Qed.

Lemma exits_late elapsed rc out err :
  (30 * 1000 < elapsed)%N ->
  completes_within (Exits elapsed rc out err) 30 = None
  /\ code_after_timeout (Exits elapsed rc out err) 30 = (-9)%Z.
Proof.
  intros H. apply exceeds_not_done. unfold exceeds. apply Z.ltb_lt. lia.
Qed.

(** ** The generic tool call *)

Section GatewayFacts.

Variable json_dumps : json -> string.
Variable json_loads : string -> exn + json.
Variable os_exec : list string -> launch.

Local Abbreviation handler := (call_mcp_tool json_dumps json_loads os_exec).
Local Abbreviation command := (tool_command json_dumps).

(** The whole result mapping for a child that is done in time. *)
Lemma call_mcp_tool_on_completion request st c rc out err :
  os_exec (command request) = Spawns c ->
  completes_within c 30 = Some (rc, out, err) ->
  handler request st
  = Some (after_run (captured (command request)) (Reaped rc) st,
          answer_on_completion json_loads rc out err).
Proof.
  intros Hexec Hdone.
  unfold call_mcp_tool, try_except, bind.
  rewrite (subprocess_run_completes os_exec _ _ _ _ _ _ _ Hexec Hdone).
  unfold answer_on_completion, answer_on_exit.
  destruct (decode_text out) as [e1 | text_out];
    [by destruct e1 |].
  destruct (decode_text err) as [e2 | text_err]; [by destruct e2 |].
  cbn [returncode ne_zero stdout stderr opt_str_or loads_arg].
  destruct (negb (rc =? 0)%Z); [reflexivity |].
  destruct (json_loads text_out) as [e | v]; [reflexivity |].
  unfold new_MCPToolResponse, lift, ret, raise.
  destruct (validate_optional_dict v); reflexivity.
Qed.

(** The result for a child that is not done in time. *)
Lemma call_mcp_tool_on_timeout request st c :
  os_exec (command request) = Spawns c ->
  completes_within c 30 = None ->
  handler request st
  = Some (after_run (captured (command request))
            (Reaped (code_after_timeout c 30)) st,
          Raise (HTTPException 504 (Text "Request timed out"))).
Proof.
  intros Hexec Hlate. unfold call_mcp_tool, try_except, bind.
  rewrite (subprocess_run_times_out os_exec _ _ _ _ Hexec Hlate).
  reflexivity.
Qed.

(** The result when the command cannot be started. *)
Lemma call_mcp_tool_on_spawn_failure request st msg :
  os_exec (command request) = SpawnFails msg ->
  handler request st
  = Some (after_failed_spawn (captured (command request)) st,
          Raise (HTTPException 500 (Str (OSError msg)))).
Proof.
  intros Hexec. unfold call_mcp_tool, try_except, bind.
  rewrite (subprocess_run_spawn_fails os_exec _ _ _ _ Hexec).
  reflexivity.
Qed.

Local Abbreviation path := (path json_dumps json_loads os_exec).

(** Every call goes one of the three ways. *)
Lemma handler_path request st :
  exists st' o, handler request st = Some (st', o) /\ path request st st' o.
Proof.
  destruct (os_exec (command request)) as [msg | c] eqn:Hexec.
  - eexists _, _. split; [by apply call_mcp_tool_on_spawn_failure |].
    by constructor.
  - destruct (completes_within c 30) as [[[rc out] err] |] eqn:Hdone.
    + eexists _, _. split; [by apply call_mcp_tool_on_completion with (c := c) |].
      by apply path_exit with (c := c).
    + eexists _, _. split; [by apply call_mcp_tool_on_timeout with (c := c) |].
      by apply path_timeout.
Qed.

Lemma handler_path_inv request st st' o :
  handler request st = Some (st', o) -> path request st st' o.
Proof.
  intros Hcall. destruct (handler_path request st) as (st1 & o1 & Heq & Hpath).
  rewrite Heq in Hcall. by injection Hcall as <- <-.
Qed.

(** The handler always comes back: it never blocks on a child. *)
Lemma call_mcp_tool_returns request st :
  exists st' r, handler request st = Some (st', r).
Proof.
  destruct (handler_path request st) as (st' & o & Heq & _). eauto.
Qed.

(** The answer is determined by the request and the environment alone. *)
Lemma path_answer_unique request st1 st1' o1 st2 st2' o2 :
  path request st1 st1' o1 -> path request st2 st2' o2 -> o1 = o2.
Proof.
  intros Hpath1 Hpath2.
  destruct Hpath1 as [msg H1 | c H1 T1 | c rc out err H1 T1];
    destruct Hpath2 as [msg' H2 | c' H2 T2 | c' rc' out' err' H2 T2];
    rewrite H1 in H2; try discriminate H2; simplify_eq; reflexivity.
Qed.

Lemma path_log request st st' o :
  path request st st' o ->
  popen_log st' = (popen_log st ++ [captured (command request)])%list.
Proof. intros Hpath. destruct Hpath; reflexivity. Qed.

Lemma except_clauses_status e :
  exists code d,
    except_clauses e = HTTPException code d /\ (code = 500 \/ code = 504)%Z.
Proof. destruct e; cbn [except_clauses]; eauto. Qed.

Lemma answer_on_exit_status rc out err :
  exists code, status_of (answer_on_exit json_loads rc out err) = Some code
               /\ (code = 200 \/ code = 500 \/ code = 504)%Z.
Proof.
  unfold answer_on_exit.
  destruct (negb (rc =? 0)%Z); [cbn; eauto |].
  destruct (json_loads out) as [e | v].
  - destruct (except_clauses_status e) as (code & d & -> & [-> | ->]); cbn; eauto.
  - destruct (validate_optional_dict v) as [e | d]; [| cbn; eauto].
    destruct (except_clauses_status e) as (code & d & -> & [-> | ->]); cbn; eauto.
Qed.

Lemma answer_on_completion_status rc out err :
  exists code, status_of (answer_on_completion json_loads rc out err) = Some code
               /\ (code = 200 \/ code = 500 \/ code = 504)%Z.
Proof.
  unfold answer_on_completion.
  destruct (decode_text out); [cbn; eauto |].
  destruct (decode_text err); [cbn; eauto |].
  apply answer_on_exit_status.
Qed.

(** A returned response comes from a child that was done in time and whose
    two streams are text. *)
Lemma returned_means_completed request st st' r :
  handler request st = Some (st', Return r) ->
  exists c rc out err text_out text_err,
    os_exec (command request) = Spawns c
    /\ completes_within c 30 = Some (rc, out, err)
    /\ decode_text out = inr text_out
    /\ decode_text err = inr text_err
    /\ answer_on_exit json_loads rc text_out text_err = Return r.
Proof.
  intros Hcall. apply handler_path_inv in Hcall.
  inversion Hcall as [| | c rc out err Hexec Hdone Hst Hans].
  unfold answer_on_completion in Hans.
  destruct (decode_text out) as [| text_out] eqn:Hout; [discriminate |].
  destruct (decode_text err) as [| text_err] eqn:Herr; [discriminate |].
  exists c, rc, out, err, text_out, text_err.
  repeat split; try assumption.
  unfold answer_on_completion. by rewrite Hout, Herr.
Qed.

End GatewayFacts.
(** ** Dictionaries *)

Lemma dict_get_set_eq k v d : dict_get k (dict_set k v d) = Some v.
Proof.
  induction d as [| [k' v'] d IH]; cbn.
  - by rewrite String.eqb_refl.
  - destruct (String.eqb k' k) eqn:E; cbn; rewrite E; [reflexivity | exact IH].
Qed.

Lemma dict_get_set_ne k k' v d :
  k <> k' -> dict_get k' (dict_set k v d) = dict_get k' d.
Proof.
  intros Hne. induction d as [| [k0 v0] d IH]; cbn.
  - destruct (String.eqb_spec k k'); [contradiction | reflexivity].
  - destruct (String.eqb_spec k0 k) as [-> | Hk0]; cbn.
    + destruct (String.eqb_spec k k'); [contradiction | reflexivity].
    + destruct (String.eqb k0 k'); [reflexivity | exact IH].
Qed.

Lemma dict_get_set_if_given_eq key value d :
  dict_get key d = None ->
  dict_get key (set_if_given key value d) = given value.
Proof.
  intros Hfresh. unfold set_if_given, given.
  destruct value as [s |]; [| exact Hfresh].
  destruct (str_truthy s); [apply dict_get_set_eq | exact Hfresh].
Qed.

Lemma dict_get_set_if_given_ne key k value d :
  key <> k -> dict_get k (set_if_given key value d) = dict_get k d.
Proof.
  intros Hne. unfold set_if_given.
  destruct value as [s |]; [| reflexivity].
  destruct (str_truthy s); [by apply dict_get_set_ne | reflexivity].
Qed.

Lemma dict_get_set_if_given_inv key k value d x :
  dict_get k (set_if_given key value d) = Some x ->
  (k = key /\ given value = Some x) \/ dict_get k d = Some x.
Proof.
  intros Hget. destruct (String.eqb_spec key k) as [<- | Hne].
  - unfold set_if_given, given in *. destruct value as [s |]; [| by right].
    destruct (str_truthy s); [| by right].
    rewrite dict_get_set_eq in Hget. by left.
  - right. by rewrite dict_get_set_if_given_ne in Hget.
Qed.

Lemma given_not_null value : given value <> Some JNull.
Proof.
  unfold given. destruct value as [s |]; [| discriminate].
  destruct (str_truthy s); discriminate.
Qed.

(** ** The convenience route for token transfers *)

(** C7: the mapping forwarded by the token-transfers route always holds
    [chain_id]; it holds each of [address], [age_from], [age_to], [token],
    [cursor] exactly when that parameter is given and not empty, with the
    parameter's value; it holds no other key and no null; with only
    [chain_id] given it is exactly [{chain_id}]; and this mapping is what
    the generic tool call receives, under the tool name
    [get_token_transfers]. *)
Theorem token_transfers_forwards_only_given_fields
    (chain_id : string) (address age_from age_to token cursor : option string) :
  let request :=
    token_transfers_request chain_id address age_from age_to token cursor in
  let forwarded := arguments request in
  tool request = "get_token_transfers"
  /\ dict_get "chain_id" forwarded = Some (JString chain_id)
  /\ dict_get "address" forwarded = given address
  /\ dict_get "age_from" forwarded = given age_from
  /\ dict_get "age_to" forwarded = given age_to
  /\ dict_get "token" forwarded = given token
  /\ dict_get "cursor" forwarded = given cursor
  /\ (forall k x, dict_get k forwarded = Some x ->
        In k ["chain_id"; "address"; "age_from"; "age_to"; "token"; "cursor"]
        /\ x <> JNull)
  /\ arguments (token_transfers_request chain_id None None None None None)
     = [("chain_id", JString chain_id)]
  /\ (forall json_dumps json_loads os_exec,
        get_token_transfers json_dumps json_loads os_exec
          chain_id address age_from age_to token cursor
        = call_mcp_tool json_dumps json_loads os_exec request).
Proof.
  cbv zeta. unfold token_transfers_request. cbn [arguments tool].
  repeat apply conj.
  - reflexivity.
  - rewrite !dict_get_set_if_given_ne by discriminate. reflexivity.
  - rewrite !dict_get_set_if_given_ne by discriminate.
    by apply dict_get_set_if_given_eq.
  - rewrite !dict_get_set_if_given_ne by discriminate.
    apply dict_get_set_if_given_eq.
    rewrite !dict_get_set_if_given_ne by discriminate. reflexivity.
  - rewrite !dict_get_set_if_given_ne by discriminate.
    apply dict_get_set_if_given_eq.
    rewrite !dict_get_set_if_given_ne by discriminate. reflexivity.
  - rewrite !dict_get_set_if_given_ne by discriminate.
    apply dict_get_set_if_given_eq.
    rewrite !dict_get_set_if_given_ne by discriminate. reflexivity.
  - apply dict_get_set_if_given_eq.
    rewrite !dict_get_set_if_given_ne by discriminate. reflexivity.
  - intros k x H. split.
    + repeat (apply dict_get_set_if_given_inv in H as [[-> _] | H];
              [cbn; tauto |]).
      cbn [dict_get] in H. destruct (String.eqb_spec "chain_id" k) as [<- | _];
        [cbn; tauto | discriminate H].
    + intros ->. revert H.
      repeat (intros H; apply dict_get_set_if_given_inv in H as [[_ H] | H];
              [by apply given_not_null in H | revert H]).
      cbn [dict_get]. destruct (String.eqb "chain_id" k); discriminate.
  - reflexivity.
  - reflexivity.
Qed.

(** ** The result mapping of the generic tool call *)

Section ResultMapping.

Variable json_dumps : json -> string.
Variable json_loads : string -> exn + json.
Variable os_exec : list string -> launch.

Local Abbreviation handler := (call_mcp_tool json_dumps json_loads os_exec).
Local Abbreviation command := (tool_command json_dumps).


(** C3 (amended): when the downstream process is done within the 30
    seconds with code 0, what it wrote to both streams is valid UTF-8, and
    the text of standard output decodes to a JSON object, the handler
    returns the response with [success] true and the decoded object as
    [data]. *)
Theorem object_output_is_returned_as_data
    (request : MCPToolRequest) (st : os) (c : child)
    (out err text_out text_err : string) (members : dict) :
  os_exec (command request) = Spawns c ->
  completes_within c 30 = Some (0%Z, out, err) ->
  decode_text out = inr text_out ->
  decode_text err = inr text_err ->
  json_loads text_out = inr (JObject members) ->
  handler request st
  = Some (after_run (captured (command request)) (Reaped 0) st,
          Return {| success := true; data := Some members; error := None |}).
Proof.
  intros Hexec Hdone Hout Herr Hjson.
  rewrite (call_mcp_tool_on_completion _ _ _ _ _ _ _ _ _ Hexec Hdone).
  unfold answer_on_completion, answer_on_exit. rewrite Hout, Herr.
  cbn [Z.eqb negb]. by rewrite Hjson.
Qed.

(** C4: when the downstream process does not exit within the 30 seconds,
    the handler raises [HTTPException] with status 504; no response body is
    returned. *)
Theorem timeout_is_http_504
    (request : MCPToolRequest) (st : os) (c : child) :
  os_exec (command request) = Spawns c ->
  exceeds c 30 = true ->
  handler request st
  = Some (after_run (captured (command request)) (Reaped (-9)) st,
          Raise (HTTPException 504 (Text "Request timed out"))).
Proof.
  intros Hexec Htime. destruct (exceeds_not_done _ _ Htime) as [Hlate Hcode].
  rewrite (call_mcp_tool_on_timeout _ _ _ _ _ _ Hexec Hlate), Hcode.
  reflexivity.
Qed.


(** C6 (amended): when the downstream process is done within the 30
    seconds with code 0 and what it wrote to both streams is valid UTF-8,
    then (1) whenever the decoder raises [JSONDecodeError] on the text of
    standard output, the handler raises [HTTPException] with status 500 and
    the detail of an invalid response; and (2) with the decoder of the
    standard library, whatever depth of nesting the interpreter still
    allows at the call, every text outside its grammar (JSON extended with
    the constants [NaN], [Infinity] and [-Infinity]) gives status 500: with
    that detail, or with the description of the limit error met before the
    malformed place. *)
Theorem malformed_output_is_http_500
    (request : MCPToolRequest) (st : os) (c : child)
    (out err text_out text_err : string) :
  os_exec (command request) = Spawns c ->
  completes_within c 30 = Some (0%Z, out, err) ->
  decode_text out = inr text_out ->
  decode_text err = inr text_err ->
  (json_loads text_out = inl JSONDecodeError ->
   handler request st
   = Some (after_run (captured (command request)) (Reaped 0) st,
           Raise (HTTPException 500 (Text "Invalid response from MCP server"))))
  /\ (PyJson.accepted text_out = false ->
      forall depth, exists d,
        call_mcp_tool json_dumps (PyJson.loads_at depth) os_exec request st
        = Some (after_run (captured (command request)) (Reaped 0) st,
                Raise (HTTPException 500 d))
        /\ (d = Text "Invalid response from MCP server"
            \/ d = Str RecursionError
            \/ exists msg, d = Str (ValueError msg))).
Proof.
  intros Hexec Hdone Hout Herr. split.
  - intros Hjson.
    rewrite (call_mcp_tool_on_completion _ _ _ _ _ _ _ _ _ Hexec Hdone).
    unfold answer_on_completion, answer_on_exit. rewrite Hout, Herr.
    cbn [Z.eqb negb]. by rewrite Hjson.
  - intros Hbad depth.
    rewrite (call_mcp_tool_on_completion _ _ _ _ _ _ _ _ _ Hexec Hdone).
    unfold answer_on_completion, answer_on_exit. rewrite Hout, Herr.
    cbn [Z.eqb negb].
    destruct (PyJsonFacts.loads_at_of_unaccepted depth _ Hbad)
      as [-> | [-> | [msg ->]]];
      cbn [except_clauses]; eauto 6.
Qed.

(** C8: every call of the handler comes back after exactly one [Popen]
    call, whose argument vector is the entry point [python -m
    blockscout_mcp_server] followed by [--tool], the tool name, [--args]
    and the JSON text of the arguments, with both output streams piped and
    read in text mode.  What is captured decides the answer: for a child
    that is done in time the answer is computed from its return code and
    the decoded text of both streams, and is status 500 when one of them is
    not valid UTF-8.  The child is given exactly 30 seconds: one that exits
    by itself within 30000 ms is waited for with its own return code, one
    that needs longer or hangs is killed. *)
Theorem one_invocation_with_fixed_argv_and_timeout
    (request : MCPToolRequest) (st : os) :
  exists st' r,
    handler request st = Some (st', r)
    /\ popen_log st'
       = (popen_log st ++
          [{| call_args :=
                ["python"; "-m"; "blockscout_mcp_server";
                 "--tool"; tool request;
                 "--args"; json_dumps (JObject (arguments request))];
              call_stdout_pipe := true;
              call_stderr_pipe := true;
              call_text := true |}])%list
    /\ (forall c rc out err,
          os_exec (command request) = Spawns c ->
          completes_within c 30 = Some (rc, out, err) ->
          r = match decode_text out, decode_text err with
              | inr text_out, inr text_err =>
                  answer_on_exit json_loads rc text_out text_err
              | _, _ => Raise (HTTPException 500 (Str UnicodeDecodeError))
              end)
    /\ (forall elapsed rc out err,
          os_exec (command request) = Spawns (Exits elapsed rc out err) ->
          children st' !! next_pid st
          = Some (Reaped (if (30 * 1000 <? elapsed)%N then -9 else rc)))
    /\ (os_exec (command request) = Spawns Hangs ->
        children st' !! next_pid st = Some (Reaped (-9))).
Proof.
  destruct (handler_path json_dumps json_loads os_exec request st)
    as (st' & r & Heq & Hpath).
  exists st', r. split; [exact Heq |].
  split; [exact (path_log _ _ _ _ _ _ _ Hpath) |].
  destruct Hpath as [msg Hexec | c Hexec Hlate | c rc out err Hexec Hdone].
  - repeat split; intros; rewrite Hexec in *; discriminate.
  - repeat split.
    + intros c' rc out err Hc Hdone. rewrite Hexec in Hc. injection Hc as <-.
      rewrite Hlate in Hdone. discriminate.
    + intros elapsed rc out err Hc. rewrite Hexec in Hc. injection Hc as ->.
      rewrite after_run_lookup.
      destruct (N.ltb_spec (30 * 1000) elapsed) as [Hgt | Hle].
      * by rewrite (proj2 (exits_late _ rc out err Hgt)).
      * rewrite (exits_in_time _ rc out err Hle) in Hlate. discriminate.
    + intros Hc. rewrite Hexec in Hc. injection Hc as ->.
      apply after_run_lookup.
  - repeat split.
    + intros c' rc' out' err' Hc Hdone'. rewrite Hexec in Hc. injection Hc as <-.
      rewrite Hdone in Hdone'. by injection Hdone' as <- <- <-.
    + intros elapsed rc' out' err' Hc. rewrite Hexec in Hc. injection Hc as ->.
      rewrite after_run_lookup.
      destruct (N.ltb_spec (30 * 1000) elapsed) as [Hgt | Hle].
      * rewrite (proj1 (exits_late _ rc' out' err' Hgt)) in Hdone. discriminate.
      * rewrite (exits_in_time _ rc' out' err' Hle) in Hdone.
        by injection Hdone as <- _ _.
    + intros Hc. rewrite Hexec in Hc. injection Hc as ->. discriminate Hdone.
Qed.

(** C9 (amended): when the downstream process is done within the 30
    seconds with a non-zero return code and what it wrote to both streams
    is valid UTF-8, the text of standard output is never decoded as JSON:
    the outcome is the failure response built from standard error, and it
    is the same whatever the JSON decoder is and whatever text standard
    output holds. *)
Theorem nonzero_exit_never_decodes_stdout
    (request : MCPToolRequest) (st : os) (c : child)
    (rc : Z) (out err text_out text_err : string) :
  os_exec (command request) = Spawns c ->
  completes_within c 30 = Some (rc, out, err) ->
  decode_text out = inr text_out ->
  decode_text err = inr text_err ->
  rc <> 0%Z ->
  handler request st
  = Some (after_run (captured (command request)) (Reaped rc) st,
          Return {| success := false; data := None;
                    error := Some (str_or text_err "Unknown error") |})
  /\ (forall (other_loads : string -> exn + json)
             (other_exec : list string -> launch) (other_c : child)
             (other_out other_text : string),
        other_exec (command request) = Spawns other_c ->
        completes_within other_c 30 = Some (rc, other_out, err) ->
        decode_text other_out = inr other_text ->
        call_mcp_tool json_dumps other_loads other_exec request st
        = handler request st).
Proof.
  intros Hexec Hdone Hout Herr Hrc. apply Z.eqb_neq in Hrc.
  assert (Hhere :
    handler request st
    = Some (after_run (captured (command request)) (Reaped rc) st,
            Return {| success := false; data := None;
                      error := Some (str_or text_err "Unknown error") |})).
  { rewrite (call_mcp_tool_on_completion _ _ _ _ _ _ _ _ _ Hexec Hdone).
    unfold answer_on_completion, answer_on_exit.
    by rewrite Hout, Herr, Hrc. }
  split; [exact Hhere |].
  intros other_loads other_exec other_c other_out other_text Hother Hdone' Hout'.
  rewrite Hhere.
  rewrite (call_mcp_tool_on_completion _ _ _ _ _ _ _ _ _ Hother Hdone').
  unfold answer_on_completion, answer_on_exit.
  by rewrite Hout', Herr, Hrc.
Qed.

(** The envelope of a returned response is well formed, except when the
    downstream process exited with code 0 and printed the JSON value
    [null]. *)
Lemma returned_envelope (request : MCPToolRequest) (st st' : os) (r : MCPToolResponse) :
  handler request st = Some (st', Return r) ->
  envelope_ok r = true
  \/ (r = {| success := true; data := None; error := None |}
      /\ exists c out err text_out,
           os_exec (command request) = Spawns c
           /\ completes_within c 30 = Some (0%Z, out, err)
           /\ decode_text out = inr text_out
           /\ json_loads text_out = inr JNull).
Proof.
  intros Hcall.
  apply returned_means_completed in Hcall
    as (c & rc & out & err & text_out & text_err
        & Hexec & Hdone & Hout & Herr & Hans).
  unfold answer_on_exit in Hans.
  destruct (Z.eqb_spec rc 0) as [-> | Hrc]; cbn [negb] in Hans.
  - destruct (json_loads text_out) as [e | v] eqn:Hjson; [discriminate |].
    destruct v; cbn in Hans; try discriminate.
    + right. injection Hans as <-. split; [reflexivity |].
      by exists c, out, err, text_out.
    + left. by injection Hans as <-.
  - left. by injection Hans as <-.
Qed.

(** Output that decodes to a JSON value other than an object or [null] is
    refused when the response is built, which surfaces as status 500. *)
Lemma non_object_output_is_http_500
    (request : MCPToolRequest) (st : os) (c : child)
    (out err text_out text_err : string) (v : json) :
  os_exec (command request) = Spawns c ->
  completes_within c 30 = Some (0%Z, out, err) ->
  decode_text out = inr text_out ->
  decode_text err = inr text_err ->
  json_loads text_out = inr v ->
  is_object v = false ->
  v <> JNull ->
  handler request st
  = Some (after_run (captured (command request)) (Reaped 0) st,
          Raise (HTTPException 500 (Str ValidationError))).
Proof.
  intros Hexec Hdone Hout Herr Hjson Hobj Hnull.
  rewrite (call_mcp_tool_on_completion _ _ _ _ _ _ _ _ _ Hexec Hdone).
  unfold answer_on_completion, answer_on_exit. rewrite Hout, Herr.
  cbn [Z.eqb negb]. rewrite Hjson.
  destruct v; try reflexivity; [contradiction | discriminate].
Qed.

(** Bytes that are not valid UTF-8 on either stream surface as status 500,
    whatever the return code. *)
Lemma undecodable_stream_is_http_500
    (request : MCPToolRequest) (st : os) (c : child)
    (rc : Z) (out err : string) :
  os_exec (command request) = Spawns c ->
  completes_within c 30 = Some (rc, out, err) ->
  utf8_valid out && utf8_valid err = false ->
  handler request st
  = Some (after_run (captured (command request)) (Reaped rc) st,
          Raise (HTTPException 500 (Str UnicodeDecodeError))).
Proof.
  intros Hexec Hdone Hbad.
  rewrite (call_mcp_tool_on_completion _ _ _ _ _ _ _ _ _ Hexec Hdone).
  unfold answer_on_completion, decode_text.
  destruct (utf8_valid out), (utf8_valid err); try discriminate; reflexivity.
Qed.

End ResultMapping.

(** ** The handler on concrete runs *)

(** The command line of the sample request. *)
Example sample_command :
  tool_command PyJson.dumps sample_request
  = ["python"; "-m"; "blockscout_mcp_server"; "--tool"; "get_address_info";
     "--args";
     "{" +:+ PyJson.quoted "chain_id" +:+ ": " +:+ PyJson.quoted "1" +:+ ", "
         +:+ PyJson.quoted "address" +:+ ": " +:+ PyJson.quoted "0xabc" +:+ "}"].
Proof. reflexivity. Qed.

(** The command line built by the token-transfers route when only
    [chain_id] is given ([age_from] is given empty). *)
Example token_transfers_command :
  tool_command PyJson.dumps
    (token_transfers_request "1" None (Some "") None None None)
  = ["python"; "-m"; "blockscout_mcp_server"; "--tool"; "get_token_transfers";
     "--args";
     "{" +:+ PyJson.quoted "chain_id" +:+ ": " +:+ PyJson.quoted "1" +:+ "}"].
Proof. reflexivity. Qed.



(** Exit code 0 with [{"x":1}] on standard output. *)
Lemma object_output_example :
  run_tool (tool_exits 0 x_is_1 "")
  = Some (after_run sample_call (Reaped 0) boot,
          Return {| success := true;
                    data := Some [("x", JInt 1)];
                    error := None |}).
Proof.
  apply (object_output_is_returned_as_data
           PyJson.dumps PyJson.loads (tool_exits 0 x_is_1 "")
           sample_request boot (Exits 10 0 x_is_1 "") x_is_1 "" x_is_1 ""
           [("x", JInt 1)]);
    reflexivity.
Defined.

(** C3 (as stated) fails: exit code 0 with the well-formed JSON text [[1]]
    on standard output gives status 500, not a response. *)
Lemma array_output_is_not_a_success : ~ every_json_output_succeeds.
Proof.
  intros Hall.
  destruct (Hall PyJson.dumps PyJson.loads (tool_exits 0 "[1]" "")
              sample_request boot 10%N "[1]" "" "[1]" (JArray [JInt 1])
              eq_refl ltac:(lia) eq_refl eq_refl)
    as (st' & r & Hcall & _).
  rewrite (non_object_output_is_http_500
             PyJson.dumps PyJson.loads (tool_exits 0 "[1]" "")
             sample_request boot (Exits 10 0 "[1]" "") "[1]" "" "[1]" ""
             (JArray [JInt 1])
             eq_refl eq_refl eq_refl eq_refl eq_refl eq_refl
             ltac:(discriminate)) in Hcall.
  discriminate Hcall.
Qed.

(** A tool that never exits. *)
Lemma hanging_tool_example :
  run_tool tool_hangs
  = Some (after_run sample_call (Reaped (-9)) boot,
          Raise (HTTPException 504 (Text "Request timed out"))).
Proof.
  apply (timeout_is_http_504
           PyJson.dumps PyJson.loads tool_hangs sample_request boot Hangs);
    reflexivity.
Defined.


(** Exit code 0 with [not-json] on standard output: the decoder raises
    [JSONDecodeError] there, and the text is outside its grammar. *)
Lemma malformed_output_example :
  run_tool (tool_exits 0 "not-json" "")
  = Some (after_run sample_call (Reaped 0) boot,
          Raise (HTTPException 500 (Text "Invalid response from MCP server")))
  /\ exists d,
       run_tool (tool_exits 0 "not-json" "")
       = Some (after_run sample_call (Reaped 0) boot,
               Raise (HTTPException 500 d))
       /\ (d = Text "Invalid response from MCP server"
           \/ d = Str RecursionError
           \/ exists msg, d = Str (ValueError msg)).
Proof.
  destruct (malformed_output_is_http_500
              PyJson.dumps PyJson.loads (tool_exits 0 "not-json" "")
              sample_request boot (Exits 10 0 "not-json" "")
              "not-json" "" "not-json" ""
              eq_refl eq_refl eq_refl eq_refl) as [Hraised Houtside].
  split; [apply Hraised; reflexivity |].
  exact (Houtside eq_refl PyJson.recursion_limit).
Defined.

(** C6 (as stated) fails: [{"x": NaN}] is not JSON, yet exit code 0 with it
    on standard output is answered with [success] true. *)
Lemma nan_output_is_not_refused : ~ every_non_json_output_is_refused.
Proof.
  intros Hall.
  destruct (Hall PyJson.dumps (tool_exits 0 x_is_nan "")
              sample_request boot 10%N x_is_nan "" x_is_nan
              eq_refl ltac:(lia) eq_refl eq_refl)
    as (st' & d & Hcall).
  rewrite (call_mcp_tool_on_completion
             PyJson.dumps PyJson.loads (tool_exits 0 x_is_nan "")
             sample_request boot (Exits 10 0 x_is_nan "") 0 x_is_nan ""
             eq_refl eq_refl) in Hcall.
  discriminate Hcall.
Qed.

(** Exit code 1 with well-formed JSON on standard output: the output plays
    no part. *)
Lemma nonzero_exit_with_json_output_example :
  run_tool (tool_exits 1 x_is_1 "boom")
  = Some (after_run sample_call (Reaped 1) boot,
          Return {| success := false; data := None; error := Some "boom" |})
  /\ (forall (other_loads : string -> exn + json)
             (other_exec : list string -> launch) (other_c : child)
             (other_out other_text : string),
        other_exec (tool_command PyJson.dumps sample_request) = Spawns other_c ->
        completes_within other_c 30 = Some (1%Z, other_out, "boom") ->
        decode_text other_out = inr other_text ->
        call_mcp_tool PyJson.dumps other_loads other_exec sample_request boot
        = run_tool (tool_exits 1 x_is_1 "boom")).
Proof.
  apply (nonzero_exit_never_decodes_stdout
           PyJson.dumps PyJson.loads (tool_exits 1 x_is_1 "boom")
           sample_request boot (Exits 10 1 x_is_1 "boom")
           1 x_is_1 "boom" x_is_1 "boom");
    [reflexivity | reflexivity | reflexivity | reflexivity | lia].
Defined.

(** C9 (as stated) fails: exit code 1 with ["boom"] on standard error and
    bytes on standard output that are not UTF-8 gives status 500, not the
    failure response. *)
Lemma undecodable_stdout_is_not_ignored : ~ nonzero_exit_ignores_stdout.
Proof.
  intros Hall.
  destruct (Hall PyJson.dumps PyJson.loads (tool_exits 1 bad_bytes "boom")
              sample_request boot 10%N 1%Z bad_bytes "boom" "boom"
              eq_refl ltac:(lia) ltac:(lia) eq_refl)
    as (st' & Hcall).
  rewrite (undecodable_stream_is_http_500
             PyJson.dumps PyJson.loads (tool_exits 1 bad_bytes "boom")
             sample_request boot (Exits 10 1 bad_bytes "boom") 1 bad_bytes "boom"
             eq_refl eq_refl eq_refl) in Hcall.
  discriminate Hcall.
Qed.

(** C1 (the code departs from it): exit code 0 with [null] on standard
    output is answered with [success] true and neither [data] nor [error]. *)
Theorem null_output_leaves_both_fields_empty :
  PyJson.loads "null" = inr JNull
  /\ run_tool (tool_exits 0 "null" "")
     = Some (after_run sample_call (Reaped 0) boot,
             Return {| success := true; data := None; error := None |})
  /\ envelope_ok {| success := true; data := None; error := None |} = false.
Proof.
  split; [reflexivity |]. split; [| reflexivity].
  rewrite (call_mcp_tool_on_completion
             PyJson.dumps PyJson.loads (tool_exits 0 "null" "")
             sample_request boot (Exits 10 0 "null" "") 0 "null" ""
             eq_refl eq_refl).
  reflexivity.
Qed.

(** C10 (the code departs from it): [null] is well-formed JSON and not an
    object, yet exit code 0 with [null] and a line end on standard output is
    answered with [success] true, not with status 500. *)
Theorem null_output_is_answered_with_success :
  let out := "null" +:+ String (ascii_of_nat 10) "" in
  PyJson.loads out = inr JNull
  /\ is_object JNull = false
  /\ call_mcp_tool PyJson.dumps PyJson.loads (tool_exits 0 out "")
       {| tool := "get_token_transfers";
          arguments := [("chain_id", JString "1")] |} boot
     = Some (after_run
               (captured (tool_command PyJson.dumps
                            {| tool := "get_token_transfers";
                               arguments := [("chain_id", JString "1")] |}))
               (Reaped 0) boot,
             Return {| success := true; data := None; error := None |}).
Proof.
  cbv zeta. split; [reflexivity |]. split; [reflexivity |].
  rewrite (call_mcp_tool_on_completion
             PyJson.dumps PyJson.loads
             (tool_exits 0 ("null" +:+ String (ascii_of_nat 10) "") "")
             _ boot (Exits 10 0 ("null" +:+ String (ascii_of_nat 10) "") "")
             0 ("null" +:+ String (ascii_of_nat 10) "") ""
             eq_refl eq_refl).
  reflexivity.
Qed.

(** * Further properties of the gateway *)

(** ** Every path through the handler *)

Section HandlerPaths.

Variable json_dumps : json -> string.
Variable json_loads : string -> exn + json.
Variable os_exec : list string -> launch.

Local Abbreviation handler := (call_mcp_tool json_dumps json_loads os_exec).
Local Abbreviation command := (tool_command json_dumps).
Local Abbreviation path_of := (handler_path json_dumps json_loads os_exec).
Local Abbreviation same_answer :=
  (path_answer_unique json_dumps json_loads os_exec).

(** X1: whatever the request, the decoder and the downstream tool do, the
    handler comes back (it never blocks on the child), and its answer is a
    response (status 200) or an [HTTPException] of status 500 or 504; no
    other exception leaves it. *)
Theorem handler_answers_or_raises_http (request : MCPToolRequest) (st : os) :
  exists st' o code,
    handler request st = Some (st', o)
    /\ status_of o = Some code
    /\ (code = 200 \/ code = 500 \/ code = 504)%Z.
Proof.
  destruct (path_of request st) as (st' & o & Heq & Hpath).
  destruct Hpath as [msg _ | c _ _ | c rc out err _ _].
  - eexists _, _, _. split; [exact Heq |]. cbn. eauto.
  - eexists _, _, _. split; [exact Heq |]. cbn. eauto.
  - destruct (answer_on_completion_status json_loads rc out err)
      as (code & Hs & Hc).
    eexists _, _, _. split; [exact Heq |]. eauto.
Qed.

(** X2: a call never leaves a child behind and never touches the children
    of other calls: afterwards every entry of the process table other than
    the one it spawned is unchanged, the child it spawned (if the spawn
    succeeded) has been waited for, and no child is running that was not
    running before. *)
Theorem handler_cleans_up_its_child (request : MCPToolRequest) (st : os) :
  exists st' o,
    handler request st = Some (st', o)
    /\ (forall p, p <> next_pid st -> children st' !! p = children st !! p)
    /\ (forall c, os_exec (command request) = Spawns c ->
          exists rc, children st' !! next_pid st = Some (Reaped rc))
    /\ (forall p c, children st' !! p = Some (Running c) ->
          children st !! p = Some (Running c)).
Proof.
  destruct (path_of request st) as (st' & o & Heq & Hpath).
  exists st', o. split; [exact Heq |].
  destruct Hpath as [msg Hexec | c Hexec _ | c rc out err Hexec _].
  - split; [reflexivity |]. split; [| by intros p c].
    intros c Hc. rewrite Hexec in Hc. discriminate.
  - split; [intros p Hp; by apply after_run_other |].
    split; [intros _ _; eexists; apply after_run_lookup |].
    intros p c' Hp. destruct (decide (p = next_pid st)) as [-> | Hne].
    + rewrite after_run_lookup in Hp. discriminate.
    + by rewrite after_run_other in Hp.
  - split; [intros p Hp; by apply after_run_other |].
    split; [intros _ _; eexists; apply after_run_lookup |].
    intros p c' Hp. destruct (decide (p = next_pid st)) as [-> | Hne].
    + rewrite after_run_lookup in Hp. discriminate.
    + by rewrite after_run_other in Hp.
Qed.

(** X3: calls are independent: the answer to a request is the same
    whatever the process table holds, hence whatever calls came before. *)
Theorem answer_does_not_depend_on_the_state
    (request : MCPToolRequest) (st1 st2 : os) :
  snd <$> handler request st1 = snd <$> handler request st2.
Proof.
  destruct (path_of request st1) as (st1' & o1 & Heq1 & Hpath1).
  destruct (path_of request st2) as (st2' & o2 & Heq2 & Hpath2).
  rewrite Heq1, Heq2. cbn. f_equal.
  exact (same_answer _ _ _ _ _ _ _ Hpath1 Hpath2).
Qed.

(** X4: when the command cannot be started, the handler raises
    [HTTPException] with status 500 and the description of the [OSError] as
    detail; the [Popen] call is logged and the process table is as before. *)
Theorem spawn_failure_is_http_500
    (request : MCPToolRequest) (st : os) (msg : string) :
  os_exec (command request) = SpawnFails msg ->
  exists st',
    handler request st
    = Some (st', Raise (HTTPException 500 (Str (OSError msg))))
    /\ children st' = children st
    /\ next_pid st' = next_pid st
    /\ popen_log st' = (popen_log st ++ [captured (command request)])%list.
Proof.
  intros Hexec. eexists. split; [by apply call_mcp_tool_on_spawn_failure |].
  repeat split.
Qed.

(** X5: when the downstream process is done within the 30 seconds with
    code 0, what it wrote to both streams is valid UTF-8, and the text of
    standard output decodes to an array, a number, a string or a boolean,
    building the response fails and the handler raises [HTTPException] with
    status 500 and the description of the validation error as detail. *)
Theorem scalar_or_array_output_is_http_500
    (request : MCPToolRequest) (st : os) (c : child)
    (out err text_out text_err : string) (v : json) :
  os_exec (command request) = Spawns c ->
  completes_within c 30 = Some (0%Z, out, err) ->
  decode_text out = inr text_out ->
  decode_text err = inr text_err ->
  json_loads text_out = inr v ->
  is_scalar_or_array v = true ->
  handler request st
  = Some (after_run (captured (command request)) (Reaped 0) st,
          Raise (HTTPException 500 (Str ValidationError))).
Proof.
  intros Hexec Hdone Hout Herr Hjson Hkind.
  rewrite (call_mcp_tool_on_completion _ _ _ _ _ _ _ _ _ Hexec Hdone).
  unfold answer_on_completion, answer_on_exit. rewrite Hout, Herr.
  cbn [Z.eqb negb]. rewrite Hjson.
  destruct v; try reflexivity; discriminate Hkind.
Qed.

(** X6: a returned response with [success] false always has no [data] and
    a non-empty [error]: it comes from a child that was done in time with a
    non-zero return code, and the message is the text of that child's
    standard error, or the placeholder when that text is empty. *)
Theorem failure_response_has_a_message
    (request : MCPToolRequest) (st st' : os) (r : MCPToolResponse) :
  handler request st = Some (st', Return r) ->
  success r = false ->
  data r = None
  /\ exists msg c rc out err text_err,
       error r = Some msg
       /\ msg <> ""
       /\ os_exec (command request) = Spawns c
       /\ completes_within c 30 = Some (rc, out, err)
       /\ rc <> 0%Z
       /\ decode_text err = inr text_err
       /\ (msg = text_err \/ (text_err = "" /\ msg = "Unknown error")).
Proof.
  intros Hcall Hfalse.
  apply returned_means_completed in Hcall
    as (c & rc & out & err & text_out & text_err
        & Hexec & Hdone & Hout & Herr & Hans).
  unfold answer_on_exit in Hans.
  destruct (Z.eqb_spec rc 0) as [-> | Hrc]; cbn [negb] in Hans.
  - destruct (json_loads text_out) as [e | v]; [discriminate |].
    destruct (validate_optional_dict v); [discriminate |].
    injection Hans as <-. discriminate Hfalse.
  - injection Hans as <-. split; [reflexivity |].
    exists (str_or text_err "Unknown error"), c, rc, out, err, text_err.
    repeat split; try done.
    + by destruct text_err.
    + destruct text_err; [right | left]; done.
Qed.

(** X7: a returned response with [success] true always has no [error] and
    carries exactly what the tool printed: it comes from a child that was
    done in time with code 0, and [data] is the value decoded from the text
    of its standard output. *)
Theorem success_response_carries_the_output
    (request : MCPToolRequest) (st st' : os) (r : MCPToolResponse) :
  handler request st = Some (st', Return r) ->
  success r = true ->
  error r = None
  /\ exists c out err text_out v,
       os_exec (command request) = Spawns c
       /\ completes_within c 30 = Some (0%Z, out, err)
       /\ decode_text out = inr text_out
       /\ json_loads text_out = inr v
       /\ data_value r = v.
Proof.
  intros Hcall Htrue.
  apply returned_means_completed in Hcall
    as (c & rc & out & err & text_out & text_err
        & Hexec & Hdone & Hout & Herr & Hans).
  unfold answer_on_exit in Hans.
  destruct (Z.eqb_spec rc 0) as [-> | Hrc]; cbn [negb] in Hans.
  - destruct (json_loads text_out) as [e | v] eqn:Hjson; [discriminate |].
    destruct v; try discriminate Hans; injection Hans as <-;
      (split; [reflexivity |]); eexists c, out, err, text_out, _; eauto.
  - injection Hans as <-. discriminate Htrue.
Qed.

(** X8: when the decoder never raises [TimeoutExpired] (that of the
    standard library does not), status 504 is raised only when, 30 seconds
    after its start, the child had not exited or its output streams were
    still open. *)
Theorem status_504_means_timeout
    (request : MCPToolRequest) (st st' : os) (d : detail) :
  (forall s cmd timeout, json_loads s <> inl (TimeoutExpired cmd timeout)) ->
  handler request st = Some (st', Raise (HTTPException 504 d)) ->
  exists c,
    os_exec (command request) = Spawns c
    /\ completes_within c 30 = None.
Proof.
  intros Hloads Hcall. apply handler_path_inv in Hcall.
  inversion Hcall as [| c Hexec Hlate | c rc out err Hexec Hdone Hst Hans].
  - by exists c.
  - exfalso. unfold answer_on_completion, answer_on_exit in Hans.
    destruct (decode_text out) as [| text_out]; [discriminate |].
    destruct (decode_text err) as [| text_err]; [discriminate |].
    destruct (negb (rc =? 0)%Z); [discriminate |].
    destruct (json_loads text_out) as [e | v] eqn:Hjson.
    + destruct e; try discriminate Hans. by apply Hloads in Hjson.
    + destruct v; discriminate Hans.
Qed.

(** X9: status 500 with the detail of an invalid response is raised only
    when the child was done in time with code 0 and decoding the text of
    its standard output raised [JSONDecodeError]. *)
Theorem invalid_response_means_undecodable_output
    (request : MCPToolRequest) (st st' : os) :
  handler request st
  = Some (st', Raise (HTTPException 500 (Text "Invalid response from MCP server"))) ->
  exists c out err text_out,
    os_exec (command request) = Spawns c
    /\ completes_within c 30 = Some (0%Z, out, err)
    /\ decode_text out = inr text_out
    /\ json_loads text_out = inl JSONDecodeError.
Proof.
  intros Hcall. apply handler_path_inv in Hcall.
  inversion Hcall as [| | c rc out err Hexec Hdone Hst Hans].
  unfold answer_on_completion, answer_on_exit in Hans.
  destruct (decode_text out) as [| text_out] eqn:Hout; [discriminate |].
  destruct (decode_text err) as [| text_err]; [discriminate |].
  destruct (Z.eqb_spec rc 0) as [-> | Hrc]; cbn [negb] in Hans; [| discriminate].
  destruct (json_loads text_out) as [e | v] eqn:Hjson.
  - destruct e; try discriminate Hans. by exists c, out, err, text_out.
  - destruct v; discriminate Hans.
Qed.

(** X14: two requests handled one after the other each get their own
    [Popen] call, logged in order, and the answer to the second is the one
    it would get on its own. *)
Theorem two_calls_in_a_row (request1 request2 : MCPToolRequest) (st : os) :
  exists st1 o1 st2 o2,
    handler request1 st = Some (st1, o1)
    /\ handler request2 st1 = Some (st2, o2)
    /\ popen_log st2
       = (popen_log st
          ++ [captured (command request1); captured (command request2)])%list
    /\ snd <$> handler request2 st = Some o2.
Proof.
  destruct (path_of request1 st) as (st1 & o1 & Heq1 & Hpath1).
  destruct (path_of request2 st1) as (st2 & o2 & Heq2 & Hpath2).
  exists st1, o1, st2, o2. split; [exact Heq1 |]. split; [exact Heq2 |].
  split.
  - assert (H1 : popen_log st1
                 = (popen_log st ++ [captured (command request1)])%list)
      by (destruct Hpath1; reflexivity).
    assert (H2 : popen_log st2
                 = (popen_log st1 ++ [captured (command request2)])%list)
      by (destruct Hpath2; reflexivity).
    rewrite H2, H1, <- app_assoc. reflexivity.
  - destruct (path_of request2 st) as (st2' & o2' & Heq & Hpath).
    rewrite Heq. cbn. f_equal.
    exact (same_answer _ _ _ _ _ _ _ Hpath Hpath2).
Qed.

(** X17: the handler returns a response exactly when the child was done
    within the 30 seconds, what it wrote to both streams is valid UTF-8,
    and either its return code is not 0, or the text of its standard output
    decodes to an object or to [null]. *)
Theorem response_is_returned_iff (request : MCPToolRequest) (st : os) :
  (exists st' r, handler request st = Some (st', Return r))
  <->
  (exists c rc out err text_out text_err,
     os_exec (command request) = Spawns c
     /\ completes_within c 30 = Some (rc, out, err)
     /\ decode_text out = inr text_out
     /\ decode_text err = inr text_err
     /\ (rc <> 0%Z
         \/ exists v, json_loads text_out = inr v
                      /\ is_scalar_or_array v = false)).
Proof.
  split.
  - intros (st' & r & Hcall).
    apply returned_means_completed in Hcall
      as (c & rc & out & err & text_out & text_err
          & Hexec & Hdone & Hout & Herr & Hans).
    exists c, rc, out, err, text_out, text_err.
    repeat (split; [assumption |]).
    unfold answer_on_exit in Hans.
    destruct (Z.eqb_spec rc 0) as [-> | Hrc]; [| by left]. cbn [negb] in Hans.
    right. destruct (json_loads text_out) as [e | v]; [discriminate |].
    exists v. split; [reflexivity |]. destruct v; try discriminate Hans; reflexivity.
  - intros (c & rc & out & err & text_out & text_err
            & Hexec & Hdone & Hout & Herr & Hwhy).
    rewrite (call_mcp_tool_on_completion _ _ _ _ _ _ _ _ _ Hexec Hdone).
    unfold answer_on_completion, answer_on_exit. rewrite Hout, Herr.
    destruct (Z.eqb_spec rc 0) as [-> | Hrc]; cbn [negb]; [| eauto].
    destruct Hwhy as [Hrc | (v & -> & Hkind)]; [contradiction |].
    destruct v; try discriminate Hkind; cbn; eauto.
Qed.

End HandlerPaths.

(** ** The further properties on concrete runs *)

(** The interpreter cannot be started. *)
Lemma missing_interpreter_example :
  exists st',
    run_tool tool_missing
    = Some (st', Raise (HTTPException 500
                          (Str (OSError "[Errno 2] No such file or directory: 'python'"))))
    /\ children st' = children boot
    /\ next_pid st' = next_pid boot
    /\ popen_log st' = (popen_log boot ++ [sample_call])%list.
Proof.
  apply (spawn_failure_is_http_500
           PyJson.dumps PyJson.loads tool_missing sample_request boot
           "[Errno 2] No such file or directory: 'python'").
  reflexivity.
Defined.

(** Exit code 0 with a JSON string on standard output. *)
Lemma string_output_example :
  run_tool (tool_exits 0 (PyJson.quoted "done") "")
  = Some (after_run sample_call (Reaped 0) boot,
          Raise (HTTPException 500 (Str ValidationError))).
Proof.
  apply (scalar_or_array_output_is_http_500
           PyJson.dumps PyJson.loads (tool_exits 0 (PyJson.quoted "done") "")
           sample_request boot (Exits 10 0 (PyJson.quoted "done") "")
           (PyJson.quoted "done") "" (PyJson.quoted "done") "" (JString "done"));
    reflexivity.
Defined.

(** Exit code 3 with nothing on standard error. *)
Lemma silent_failure_example :
  data {| success := false; data := None; error := Some "Unknown error" |} = None
  /\ exists msg c rc out err text_err,
       error {| success := false; data := None; error := Some "Unknown error" |}
       = Some msg
       /\ msg <> ""
       /\ tool_exits 3 "" "" (tool_command PyJson.dumps sample_request) = Spawns c
       /\ completes_within c 30 = Some (rc, out, err)
       /\ rc <> 0%Z
       /\ decode_text err = inr text_err
       /\ (msg = text_err \/ (text_err = "" /\ msg = "Unknown error")).
Proof.
  apply (failure_response_has_a_message
           PyJson.dumps PyJson.loads (tool_exits 3 "" "") sample_request boot
           (after_run sample_call (Reaped 3) boot)
           {| success := false; data := None; error := Some "Unknown error" |});
    reflexivity.
Defined.

(** Exit code 0 with the empty object on standard output. *)
Lemma empty_object_example :
  error {| success := true; data := Some []; error := None |} = None
  /\ exists c out err text_out v,
       tool_exits 0 "{}" "" (tool_command PyJson.dumps sample_request) = Spawns c
       /\ completes_within c 30 = Some (0%Z, out, err)
       /\ decode_text out = inr text_out
       /\ PyJson.loads text_out = inr v
       /\ data_value {| success := true; data := Some []; error := None |} = v.
Proof.
  apply (success_response_carries_the_output
           PyJson.dumps PyJson.loads (tool_exits 0 "{}" "") sample_request boot
           (after_run sample_call (Reaped 0) boot)
           {| success := true; data := Some []; error := None |});
    reflexivity.
Defined.

(** A tool that exits in ten milliseconds and leaves its output streams
    open, in a process of its own, for a minute. *)
Lemma held_pipes_example :
  exists c,
    (fun _ : list string => Spawns (Detaches 10 0 "{}" "" (Some 60000%N)))
      (tool_command PyJson.dumps sample_request) = Spawns c
    /\ completes_within c 30 = None.
Proof.
  apply (status_504_means_timeout
           PyJson.dumps PyJson.loads
           (fun _ => Spawns (Detaches 10 0 "{}" "" (Some 60000%N)))
           sample_request boot
           (after_run sample_call (Reaped 0) boot)
           (Text "Request timed out")).
  - exact PyJsonFacts.loads_never_times_out.
  - reflexivity.
Defined.

(** Exit code 0 with nothing on standard output. *)
Lemma empty_output_example :
  exists c out err text_out,
    tool_exits 0 "" "" (tool_command PyJson.dumps sample_request) = Spawns c
    /\ completes_within c 30 = Some (0%Z, out, err)
    /\ decode_text out = inr text_out
    /\ PyJson.loads text_out = inl JSONDecodeError.
Proof.
  apply (invalid_response_means_undecodable_output
           PyJson.dumps PyJson.loads (tool_exits 0 "" "") sample_request boot
           (after_run sample_call (Reaped 0) boot)).
  reflexivity.
Defined.

(** ** The convenience routes *)

(** The mapping of the token-transfers route, written out. *)
Lemma token_transfers_arguments_closed_form
    (chain_id : string) (address age_from age_to token cursor : option string) :
  arguments (token_transfers_request chain_id address age_from age_to token cursor)
  = ([("chain_id", JString chain_id)]
     ++ entry "address" address ++ entry "age_from" age_from
     ++ entry "age_to" age_to ++ entry "token" token
     ++ entry "cursor" cursor)%list.
Proof.
  destruct address as [[| ? ?] |], age_from as [[| ? ?] |],
    age_to as [[| ? ?] |], token as [[| ? ?] |], cursor as [[| ? ?] |];
    reflexivity.
Qed.

Section Routes.

Variable json_dumps : json -> string.
Variable json_loads : string -> exn + json.
Variable os_exec : list string -> launch.

(** X10: the address-info route makes exactly one [Popen] call, for the
    tool [get_address_info], with the JSON text of the mapping that holds
    [chain_id] and [address] in this order; both are forwarded as they are,
    also when empty. *)
Theorem address_info_invokes_its_tool (chain_id address : string) (st : os) :
  exists st' o,
    get_address_info json_dumps json_loads os_exec chain_id address st
    = Some (st', o)
    /\ popen_log st'
       = (popen_log st ++
          [captured
             ["python"; "-m"; "blockscout_mcp_server";
              "--tool"; "get_address_info";
              "--args";
              json_dumps (JObject [("chain_id", JString chain_id);
                                   ("address", JString address)])]])%list.
Proof.
  unfold get_address_info.
  destruct (handler_path json_dumps json_loads os_exec
              {| tool := "get_address_info";
                 arguments := [("chain_id", JString chain_id);
                               ("address", JString address)] |} st)
    as (st' & o & Heq & Hpath).
  exists st', o. split; [exact Heq |]. by apply path_log in Hpath.
Qed.

(** X13: the token-transfers route makes exactly one [Popen] call, for the
    tool [get_token_transfers], with the JSON text of the mapping that
    holds [chain_id] followed by the parameters that are given and not
    empty, in the order [address], [age_from], [age_to], [token],
    [cursor]. *)
Theorem token_transfers_invokes_its_tool
    (chain_id : string) (address age_from age_to token cursor : option string)
    (st : os) :
  exists st' o,
    get_token_transfers json_dumps json_loads os_exec
      chain_id address age_from age_to token cursor st
    = Some (st', o)
    /\ popen_log st'
       = (popen_log st ++
          [captured
             ["python"; "-m"; "blockscout_mcp_server";
              "--tool"; "get_token_transfers";
              "--args";
              json_dumps
                (JObject ([("chain_id", JString chain_id)]
                          ++ entry "address" address
                          ++ entry "age_from" age_from
                          ++ entry "age_to" age_to
                          ++ entry "token" token
                          ++ entry "cursor" cursor))]])%list.
Proof.
  unfold get_token_transfers.
  destruct (handler_path json_dumps json_loads os_exec
              (token_transfers_request chain_id address age_from age_to
                 token cursor) st)
    as (st' & o & Heq & Hpath).
  exists st', o. split; [exact Heq |]. apply path_log in Hpath.
  rewrite Hpath. unfold tool_command.
  rewrite token_transfers_arguments_closed_form. reflexivity.
Qed.

End Routes.

(** X11: the mapping built by the token-transfers route is [chain_id]
    followed by one entry for each parameter that is given and not empty,
    in the order [address], [age_from], [age_to], [token], [cursor]; its
    keys are pairwise different. *)
Theorem token_transfers_mapping_is_ordered
    (chain_id : string) (address age_from age_to token cursor : option string) :
  let forwarded :=
    arguments (token_transfers_request chain_id address age_from age_to
                 token cursor) in
  forwarded
  = ([("chain_id", JString chain_id)]
     ++ entry "address" address ++ entry "age_from" age_from
     ++ entry "age_to" age_to ++ entry "token" token
     ++ entry "cursor" cursor)%list
  /\ NoDup (map fst forwarded).
Proof.
  cbv zeta. split; [apply token_transfers_arguments_closed_form |].
  rewrite token_transfers_arguments_closed_form.
  destruct address as [[| ? ?] |], age_from as [[| ? ?] |],
    age_to as [[| ? ?] |], token as [[| ? ?] |], cursor as [[| ? ?] |];
    cbn; apply NoDup_ListNoDup;
    repeat (constructor; [cbn; intuition discriminate |]); constructor.
Qed.

(** X12: for the token-transfers route a parameter given empty is the same
    as a parameter left out: both build the same request. *)
Theorem blank_parameters_count_as_omitted
    (chain_id : string) (address age_from age_to token cursor : option string) :
  token_transfers_request chain_id address age_from age_to token cursor
  = token_transfers_request chain_id
      (blank_to_none address) (blank_to_none age_from) (blank_to_none age_to)
      (blank_to_none token) (blank_to_none cursor).
Proof.
  destruct address as [[| ? ?] |], age_from as [[| ? ?] |],
    age_to as [[| ? ?] |], token as [[| ? ?] |], cursor as [[| ? ?] |];
    reflexivity.
Qed.


(** ** The values of the token-transfers mapping *)

(** X16: every value of the mapping built by the token-transfers route is
    a string, and the value of an optional key is never the empty string
    (only [chain_id] is forwarded as it is, even when empty). *)
Theorem token_transfers_values_are_strings
    (chain_id : string) (address age_from age_to token cursor : option string)
    (k : string) (x : json) :
  dict_get k
    (arguments (token_transfers_request chain_id address age_from age_to
                  token cursor)) = Some x ->
  exists s, x = JString s /\ (k <> "chain_id" -> s <> "").
Proof.
  unfold token_transfers_request. cbn [arguments]. intros H.
  assert (Hgiven : forall value, given value = Some x ->
                     exists s, x = JString s /\ (k <> "chain_id" -> s <> "")).
  { intros [s |]; cbn [given]; [| discriminate].
    destruct s; cbn [str_truthy]; [discriminate |].
    intros [= <-]. eexists. split; [reflexivity | discriminate]. }
  repeat (apply dict_get_set_if_given_inv in H as [[_ H] | H];
          [by apply Hgiven in H |]).
  cbn [dict_get] in H. destruct (String.eqb_spec "chain_id" k) as [<- | _];
    [| discriminate H].
  injection H as <-. eexists. split; [reflexivity | congruence].
Qed.

(** An address that is given is forwarded, and is not empty. *)
Lemma forwarded_address_example :
  exists s, JString "0xabc" = JString s /\ ("address" <> "chain_id" -> s <> "").
Proof.
  apply (token_transfers_values_are_strings
           "" (Some "0xabc") None (Some "") None None "address" (JString "0xabc")).
  reflexivity.
Defined.

(** ** Streams that are not text, and streams that stay open *)

Section Streams.

Variable json_dumps : json -> string.
Variable json_loads : string -> exn + json.
Variable os_exec : list string -> launch.

Local Abbreviation handler := (call_mcp_tool json_dumps json_loads os_exec).
Local Abbreviation command := (tool_command json_dumps).

(** X18: when the downstream process is done within the 30 seconds and
    what it wrote to standard output or to standard error is not valid
    UTF-8, the handler raises [HTTPException] with status 500 and the
    description of the decoding error as detail, whatever the return code
    and whatever the other stream holds; the child has been waited for. *)
Theorem undecodable_output_is_http_500
    (request : MCPToolRequest) (st : os) (c : child)
    (rc : Z) (out err : string) :
  os_exec (command request) = Spawns c ->
  completes_within c 30 = Some (rc, out, err) ->
  utf8_valid out = false \/ utf8_valid err = false ->
  handler request st
  = Some (after_run (captured (command request)) (Reaped rc) st,
          Raise (HTTPException 500 (Str UnicodeDecodeError))).
Proof.
  intros Hexec Hdone Hbad.
  rewrite (call_mcp_tool_on_completion _ _ _ _ _ _ _ _ _ Hexec Hdone).
  unfold answer_on_completion, decode_text.
  destruct Hbad as [-> | ->]; [reflexivity |].
  destruct (utf8_valid out); reflexivity.
Qed.

(** X19: when the downstream process exits within the 30 seconds but a
    helper it started keeps its output streams open beyond them, the
    handler raises [HTTPException] with status 504, whatever the return
    code and the output; the child is waited for with its own return code
    (no signal is sent to a child that has exited). *)
Theorem held_streams_are_http_504
    (request : MCPToolRequest) (st : os)
    (elapsed : N) (rc : Z) (out err : string) (released : option N) :
  os_exec (command request) = Spawns (Detaches elapsed rc out err released) ->
  (elapsed <= 30 * 1000)%N ->
  (forall t, released = Some t -> (30 * 1000 < t)%N) ->
  handler request st
  = Some (after_run (captured (command request)) (Reaped rc) st,
          Raise (HTTPException 504 (Text "Request timed out"))).
Proof.
  intros Hexec Hexit Hheld.
  assert (Hlate : completes_within (Detaches elapsed rc out err released) 30 = None).
  { unfold completes_within. destruct released as [t |]; [| reflexivity].
    specialize (Hheld t eq_refl).
    destruct (Z.leb_spec (Z.of_N (N.max elapsed t)) (1000 * 30)); [lia | reflexivity]. }
  rewrite (call_mcp_tool_on_timeout _ _ _ _ _ _ Hexec Hlate).
  unfold code_after_timeout, exits_within.
  destruct (Z.leb_spec (Z.of_N elapsed) (1000 * 30)); [reflexivity | lia].
Qed.

End Streams.

(** Exit code 0 with an object on standard output and a byte that is not
    UTF-8 on standard error. *)
Lemma undecodable_stderr_example :
  run_tool (tool_exits 0 x_is_1 bad_bytes)
  = Some (after_run sample_call (Reaped 0) boot,
          Raise (HTTPException 500 (Str UnicodeDecodeError))).
Proof.
  apply (undecodable_output_is_http_500
           PyJson.dumps PyJson.loads (tool_exits 0 x_is_1 bad_bytes)
           sample_request boot (Exits 10 0 x_is_1 bad_bytes) 0 x_is_1 bad_bytes);
    [reflexivity | reflexivity | right; reflexivity].
Defined.

(** A tool that prints the empty object and exits with code 0 after ten
    milliseconds, while its helper keeps the streams open for good. *)
Lemma held_streams_example :
  call_mcp_tool PyJson.dumps PyJson.loads
    (fun _ => Spawns (Detaches 10 0 "{}" "" None)) sample_request boot
  = Some (after_run sample_call (Reaped 0) boot,
          Raise (HTTPException 504 (Text "Request timed out"))).
Proof.
  apply (held_streams_are_http_504
           PyJson.dumps PyJson.loads (fun _ => Spawns (Detaches 10 0 "{}" "" None))
           sample_request boot 10 0 "{}" "" None);
    [reflexivity | lia | discriminate].
Defined.
